(** * Multi-agent system: capability registry, file tools and team set-up

    A shallow embedding of [multi_agent_system.py]: the tool-server
    configuration loader, the registry of tool functions, the three
    file tools working under the [workspace] directory, agent creation
    and the two team presets, followed by the properties of the
    specification that concern them.

    Python values are modelled as the code uses them: a call either
    returns or raises ([outcome]); a [dict] is an insertion-ordered
    association list; the file tools run in a state monad over the
    world they read and write, through the calls of [pathlib], of
    which a model on a POSIX file system is given. *)

From Stdlib Require Import Ascii String.
From stdpp Require Import base option list strings gmap fin_maps.
From stdpp Require Import pretty.

Local Open Scope string_scope.
Local Open Scope list_scope.

Set Warnings "-register-all,-clear-no-such-hyp".

(** ** Python basics *)

Module Py.

(** The operating-system errors the file tools can meet: the four
    that the model of the file system below gives, and any other, by
    its number and its text ([e.errno] and [e.strerror]). *)
Inductive oserror :=
| ENOENT
| ENOTDIR
| EISDIR
| EEXIST
| Errno (number : nat) (strerror : string).

(** Exceptions, all of them subclasses of [Exception].
    [OSError ENOENT] is [FileNotFoundError], and so on.  The two codec
    errors are subclasses of [ValueError]; they keep the object that
    could not be decoded or encoded.  Any other exception is given by
    the name of its class and its text. *)
Inductive exn :=
| OSError (errno : oserror) (filename : string)
| ValueError (msg : string)
| TypeError (msg : string)
| AttributeError (msg : string)
| JSONDecodeError (msg : string)
| UnicodeDecodeError (object : string)
| UnicodeEncodeError (object : string)
| OtherException (class_name msg : string).

(** What a call does: return a value or raise. *)
Inductive outcome (A : Type) :=
| Return (a : A)
| Raise (e : exn).
Arguments Return {A} a.
Arguments Raise {A} e.

(** [str(e)], the text of an exception.  It is Python's, not the
    repository's: the file tools are stated for any such text. *)
Class Messages := str : exn -> string.

Definition is_returned {A} (o : outcome A) : bool :=
  match o with Return _ => true | Raise _ => false end.

(** [sep.join(l)] *)
Fixpoint join (sep : string) (l : list string) : string :=
  match l with
  | [] => ""
  | [x] => x
  | x :: l' => x +:+ sep +:+ join sep l'
  end.

(** [needle in s] on strings. *)
Fixpoint contains (needle s : string) : bool :=
  String.prefix needle s ||
  match s with
  | EmptyString => false
  | String _ s' => contains needle s'
  end.

(** *** Dictionaries: insertion-ordered, one entry per key *)

Section Dict.
Context {V : Type}.

Definition dict := list (string * V).

Definition keys (d : dict) : list string := d.*1.
Definition values (d : dict) : list V := d.*2.

(** [d.get(k)] *)
Fixpoint dict_lookup (d : dict) (k : string) : option V :=
  match d with
  | [] => None
  | (k', v) :: d' => if decide (k' = k) then Some v else dict_lookup d' k
  end.

(** [k in d] *)
Definition dict_mem (k : string) (d : dict) : bool :=
  bool_decide (k ∈ keys d).

(** [d[k] = v]: an existing key keeps its place, a new one goes last. *)
Fixpoint dict_set (d : dict) (k : string) (v : V) : dict :=
  match d with
  | [] => [(k, v)]
  | (k', v') :: d' =>
      if decide (k' = k) then (k', v) :: d' else (k', v') :: dict_set d' k v
  end.

(** A dictionary display [{k1: v1, ..., kn: vn}]. *)
Definition dict_of (l : list (string * V)) : dict :=
  foldl (fun d kv => dict_set d kv.1 kv.2) [] l.
End Dict.
Arguments dict V : clear implicits.

(** *** JSON documents, as [json.load] returns them *)

Inductive json :=
| JNull
| JBool (b : bool)
| JNum (n : Z)
| JStr (s : string)
| JArr (l : list json)
| JObj (o : list (string * json)).

Definition type_name (v : json) : string :=
  match v with
  | JNull => "NoneType"
  | JBool _ => "bool"
  | JNum _ => "int"
  | JStr _ => "str"
  | JArr _ => "list"
  | JObj _ => "dict"
  end.

Definition is_dict (v : json) : bool :=
  match v with JObj _ => true | _ => false end.

(** Equality of two values where one is a string: enough for [x in l]
    with a string [x]. *)
Definition is_str (k : string) (v : json) : bool :=
  match v with JStr s => bool_decide (s = k) | _ => false end.

(** [v.get(k, default)]: only a dict has the method. *)
Definition get (v : json) (k : string) (dflt : json) : outcome json :=
  match v with
  | JObj o => Return (default dflt (dict_lookup o k))
  | _ => Raise (AttributeError
                  ("'" +:+ type_name v +:+ "' object has no attribute 'get'"))
  end.

(** [len(v)] *)
Definition len (v : json) : outcome nat :=
  match v with
  | JObj o => Return (length o)
  | JArr l => Return (length l)
  | JStr s => Return (String.length s)
  | _ => Raise (TypeError
                  ("object of type '" +:+ type_name v +:+ "' has no len()"))
  end.

(** [k in v] for a string [k]: a key of a dict, an element of a list,
    a substring of a string. *)
Definition has (k : string) (v : json) : outcome bool :=
  match v with
  | JObj o => Return (dict_mem k o)
  | JArr l => Return (existsb (is_str k) l)
  | JStr s => Return (contains k s)
  | _ => Raise (TypeError
                  ("argument of type '" +:+ type_name v +:+ "' is not iterable"))
  end.

(** [v.items()] *)
Definition items (v : json) : outcome (list (string * json)) :=
  match v with
  | JObj o => Return o
  | _ => Raise (AttributeError
                  ("'" +:+ type_name v +:+ "' object has no attribute 'items'"))
  end.

(** Sequencing of calls that may raise. *)
Definition and_then {A B} (m : outcome A) (k : A -> outcome B) : outcome B :=
  match m with
  | Return a => k a
  | Raise e => Raise e
  end.

Notation "x <~ m ;; k" := (and_then m (fun x => k))
  (at level 100, m at next level, right associativity).

Definition newline : string := String "010"%char EmptyString.

(** The lines of a multi-line literal, put together again. *)
Definition unlines (l : list string) : string := join newline l.

End Py.

(** ** Strings as bytes

    A string stands for the Python string that its bytes decode to
    ([os.fsdecode]: UTF-8, an undecodable byte giving the lone
    surrogate that escapes it), so a file name is the bytes the system
    sees, and a text has a UTF-8 encoding exactly when its bytes are
    well-formed UTF-8.  Python strings with surrogates of another kind
    have no counterpart here. *)

Module Text.
Import Py.

Definition byte (c : ascii) : nat := nat_of_ascii c.

Definition between (lo hi : nat) (c : ascii) : bool :=
  (lo <=? byte c)%nat && (byte c <=? hi)%nat.

Definition continuation (c : ascii) : bool := between 128 191 c.

(** What the UTF-8 decoder of CPython finds at the head of some bytes:
    a character of [n] bytes, or [n] bytes in error, with the reason
    it gives. *)
Inductive step := Char (n : nat) | Bad (n : nat) (reason : string).

Definition invalid_start : string := "invalid start byte".
Definition invalid_continuation : string := "invalid continuation byte".
Definition unexpected_end : string := "unexpected end of data".

(** The byte after a lead of three or of four: a continuation byte
    that makes no overlong form, no surrogate and nothing above
    U+10FFFF. *)
Definition second_of_three (lead : ascii) (c1 : ascii) : bool :=
  if (byte lead =? 224)%nat then between 160 191 c1
  else if (byte lead =? 237)%nat then between 128 159 c1
  else continuation c1.

Definition second_of_four (lead : ascii) (c1 : ascii) : bool :=
  if (byte lead =? 240)%nat then between 144 191 c1
  else if (byte lead =? 244)%nat then between 128 143 c1
  else continuation c1.

Definition decode_step (c : ascii) (rest : string) : step :=
  if (byte c <? 128)%nat then Char 1
  else if (byte c <? 194)%nat then Bad 1 invalid_start
  else if (byte c <? 224)%nat then
    match rest with
    | EmptyString => Bad 1 unexpected_end
    | String c1 _ =>
        if continuation c1 then Char 2 else Bad 1 invalid_continuation
    end
  else if (byte c <? 240)%nat then
    match rest with
    | EmptyString => Bad 1 unexpected_end
    | String c1 EmptyString =>
        if second_of_three c c1 then Bad 2 unexpected_end
        else Bad 1 invalid_continuation
    | String c1 (String c2 _) =>
        if negb (second_of_three c c1) then Bad 1 invalid_continuation
        else if continuation c2 then Char 3
        else Bad 2 invalid_continuation
    end
  else if (byte c <? 245)%nat then
    match rest with
    | EmptyString => Bad 1 unexpected_end
    | String c1 rest1 =>
        if negb (second_of_four c c1) then Bad 1 invalid_continuation
        else match rest1 with
             | EmptyString => Bad 2 unexpected_end
             | String c2 rest2 =>
                 if negb (continuation c2) then Bad 2 invalid_continuation
                 else match rest2 with
                      | EmptyString => Bad 3 unexpected_end
                      | String c3 _ =>
                          if continuation c3 then Char 4
                          else Bad 3 invalid_continuation
                      end
             end
    end
  else Bad 1 invalid_start.

Definition step_length (st : step) : nat :=
  match st with Char n | Bad n _ => n end.

(** [s[:n]] and [s[n:]] on bytes. *)
Fixpoint first_bytes (n : nat) (s : string) : string :=
  match n, s with
  | S n', String c s' => String c (first_bytes n' s')
  | _, _ => EmptyString
  end.

Fixpoint skip_bytes (n : nat) (s : string) : string :=
  match n, s with
  | S n', String _ s' => skip_bytes n' s'
  | _, _ => s
  end.

(** The bytes cut into characters and runs in error, in order. *)
Fixpoint pieces_from (fuel : nat) (s : string) : list (step * string) :=
  match fuel, s with
  | S fuel', String c rest =>
      let st := decode_step c rest in
      (st, first_bytes (step_length st) s)
      :: pieces_from fuel' (skip_bytes (step_length st) s)
  | _, _ => []
  end.

Definition pieces (s : string) : list (step * string) :=
  pieces_from (String.length s) s.

Definition is_char (p : step * string) : bool :=
  match p.1 with Char _ => true | Bad _ _ => false end.

(** Well-formed UTF-8, as the strict codec accepts it: shortest forms
    only, no surrogates, nothing above U+10FFFF. *)
Definition valid_utf8 (s : string) : bool := forallb is_char (pieces s).

(** [len(s)]: a character counts for one, and so does every byte in
    error. *)
Definition char_count (s : string) : nat :=
  sum_list ((fun p : step * string =>
               match p.1 with Char _ => 1 | Bad n _ => n end) <$> pieces s).

(** [c in s] for a character. *)
Fixpoint mentions (c : ascii) (s : string) : bool :=
  match s with
  | EmptyString => false
  | String c' s' => Ascii.eqb c' c || mentions c s'
  end.

(** *** The messages of CPython, for the examples

    The properties are stated for any [Messages]; this instance serves
    where an example needs one.  It gives the text of an [OSError]
    with a file name, of the codec errors met when a text is decoded
    or encoded in one piece, as [read_text] and [write_text] do, and
    the text given for the others.  In [repr], the characters from
    U+0100 on are all taken as printable. *)

Definition strerror (k : oserror) : string :=
  match k with
  | ENOENT => "[Errno 2] No such file or directory"
  | ENOTDIR => "[Errno 20] Not a directory"
  | EISDIR => "[Errno 21] Is a directory"
  | EEXIST => "[Errno 17] File exists"
  | Errno number text => "[Errno " +:+ pretty number +:+ "] " +:+ text
  end.

Definition quote1 : ascii := "'"%char.
Definition quote2 : ascii := "034"%char.
Definition backslash : ascii := "092"%char.

Definition hex_digit (n : nat) : ascii :=
  if (n <? 10)%nat then ascii_of_nat (48 + n) else ascii_of_nat (87 + n).

Definition hex2 (n : nat) : string :=
  String (hex_digit (n / 16)) (String (hex_digit (n mod 16)) EmptyString).

(** A character of one byte, in [repr]. *)
Definition escape (quote c : ascii) : string :=
  if Ascii.eqb c quote || Ascii.eqb c backslash then
    String backslash (String c EmptyString)
  else if (byte c =? 9)%nat then String backslash "t"
  else if (byte c =? 10)%nat then String backslash "n"
  else if (byte c =? 13)%nat then String backslash "r"
  else if (byte c <? 32)%nat || (byte c =? 127)%nat then
    String backslash ("x" +:+ hex2 (byte c))
  else String c EmptyString.

(** The lone surrogate that escapes a byte, in [repr]. *)
Fixpoint escaped_bytes (s : string) : string :=
  match s with
  | EmptyString => EmptyString
  | String c s' =>
      String backslash ("udc" +:+ hex2 (byte c)) +:+ escaped_bytes s'
  end.

(** A character or a run in error, in [repr]; U+0080 to U+00A0 and
    U+00AD are not printable. *)
Definition repr_piece (quote : ascii) (p : step * string) : string :=
  match p with
  | (Char _, String c EmptyString) => escape quote c
  | (Char _, String c (String c1 EmptyString)) =>
      if (byte c =? 194)%nat && (between 128 160 c1 || (byte c1 =? 173)%nat)
      then String backslash ("x" +:+ hex2 (byte c1))
      else p.2
  | (Char _, bytes) => bytes
  | (Bad _ _, bytes) => escaped_bytes bytes
  end.

Definition repr (s : string) : string :=
  let quote :=
    if mentions quote1 s && negb (mentions quote2 s) then quote2 else quote1 in
  String quote
    (String.concat EmptyString (repr_piece quote <$> pieces s)
     +:+ String quote EmptyString).

Definition position (start count : nat) : string :=
  if (count =? 1)%nat then " in position " +:+ pretty start
  else "s in position " +:+ pretty start +:+ "-"
       +:+ pretty (start + count - 1).

Definition first_byte (s : string) : nat :=
  match s with
  | String c _ => byte c
  | EmptyString => 0
  end.

(** The first bytes in error, where they start, and the reason. *)
Fixpoint decode_error (ps : list (step * string)) (at_byte : nat)
  : option (nat * string * string) :=
  match ps with
  | [] => None
  | (Char n, _) :: ps' => decode_error ps' (n + at_byte)
  | (Bad _ reason, bytes) :: _ => Some (at_byte, bytes, reason)
  end.

Definition decode_text (s : string) : string :=
  match decode_error (pieces s) 0 with
  | Some (start, bytes, reason) =>
      "'utf-8' codec can't decode byte"
      +:+ (if (String.length bytes =? 1)%nat
           then " 0x" +:+ hex2 (first_byte bytes) else EmptyString)
      +:+ position start (String.length bytes) +:+ ": " +:+ reason
  | None => EmptyString
  end.

(** The first surrogates, where they start among the characters, and
    how many follow each other. *)
Fixpoint surrogates (ps : list (step * string)) : nat :=
  match ps with
  | (Bad n _, _) :: ps' => n + surrogates ps'
  | _ => 0
  end.

Fixpoint encode_error (ps : list (step * string)) (at_char : nat)
  : option (nat * nat * string) :=
  match ps with
  | [] => None
  | (Char _, _) :: ps' => encode_error ps' (S at_char)
  | (Bad _ _, bytes) :: _ => Some (at_char, surrogates ps, bytes)
  end.

Definition encode_text (s : string) : string :=
  match encode_error (pieces s) 0 with
  | Some (start, count, bytes) =>
      "'utf-8' codec can't encode character"
      +:+ (if (count =? 1)%nat
           then " '" +:+ escaped_bytes (first_bytes 1 bytes) +:+ "'"
           else EmptyString)
      +:+ position start count +:+ ": surrogates not allowed"
  | None => EmptyString
  end.

Definition cpython : Messages :=
  fun e =>
    match e with
    | OSError k f => strerror k +:+ ": " +:+ repr f
    | ValueError m | TypeError m | AttributeError m | JSONDecodeError m => m
    | OtherException _ m => m
    | UnicodeDecodeError data => decode_text data
    | UnicodeEncodeError data => encode_text data
    end.

End Text.

(** ** Paths, [pathlib] and the file system

    The file tools reach the files through six calls of [pathlib].
    They are first taken as an interface, so that what is said of the
    tools in general holds whatever the system does; then a model of
    them is given on a POSIX file system of plain files, directories
    and the null device: a finite map from places (the names from the
    root down) to nodes, the root being a directory.  The model has no
    symbolic links and no other special files, no permissions, and no
    limits on the length of a name or on space. *)

Module Fs.
Import Py Text.

(** *** Pure paths *)

(** How a path is anchored.  POSIX keeps exactly two leading slashes
    apart from one or from three and more. *)
Inductive root_kind := Relative | Root | DoubleRoot.

#[global] Instance root_kind_eq_dec : EqDecision root_kind.
Proof. solve_decision. Defined.

Record PurePath := { anchor : root_kind; parts : list string }.

(** [p.is_absolute()] *)
Definition absolute (p : PurePath) : bool :=
  match anchor p with
  | Relative => false
  | Root | DoubleRoot => true
  end.

(** [s.split("/")] *)
Fixpoint segments (s : string) : list string :=
  match s with
  | EmptyString => [""]
  | String c s' =>
      if Ascii.eqb c "/" then "" :: segments s'
      else match segments s' with
           | seg :: rest => String c seg :: rest
           | [] => [String c ""]
           end
  end.

Definition is_name (seg : string) : bool :=
  negb (String.eqb seg "") && negb (String.eqb seg ".").

(** The root of [s]: [//] for exactly two leading slashes. *)
Definition root_of (s : string) : root_kind :=
  if String.prefix "///" s then Root
  else if String.prefix "//" s then DoubleRoot
  else if String.prefix "/" s then Root
  else Relative.

(** [Path(s)]: empty and [.] segments vanish, [..] stays. *)
Definition Path (s : string) : PurePath :=
  {| anchor := root_of s;
     parts := List.filter is_name (segments s) |}.

(** [a / b]: an absolute right-hand side replaces the left one. *)
Definition truediv (a b : PurePath) : PurePath :=
  if absolute b then b
  else {| anchor := anchor a; parts := parts a ++ parts b |}.

(** [p.parent]; the parent of [.] and of [/] is the path itself. *)
Definition parent (p : PurePath) : PurePath :=
  {| anchor := anchor p; parts := removelast (parts p) |}.

(** [str(p)] *)
Definition str_path (p : PurePath) : string :=
  match anchor p, parts p with
  | Relative, [] => "."
  | Relative, l => join "/" l
  | Root, l => "/" +:+ join "/" l
  | DoubleRoot, l => "//" +:+ join "/" l
  end.

Definition NUL : ascii := "000"%char.
Definition CR : ascii := "013"%char.
Definition LF : ascii := "010"%char.

Definition has_nul (p : PurePath) : bool := existsb (mentions NUL) (parts p).

(** *** Calls that read or change the world *)

Definition io (W A : Type) : Type := W -> outcome A * W.

Definition ret {W A} (a : A) : io W A := fun w => (Return a, w).
Definition raise {W A} (e : exn) : io W A := fun w => (Raise e, w).

Definition bind {W A B} (m : io W A) (k : A -> io W B) : io W B :=
  fun w =>
    match m w with
    | (Return a, w') => k a w'
    | (Raise e, w') => (Raise e, w')
    end.

(** [try: m  except Exception as e: h e].  What [m] did to the world
    before it raised stays done. *)
Definition try_except {W A} (m : io W A) (h : exn -> io W A) : io W A :=
  fun w =>
    match m w with
    | (Return a, w') => (Return a, w')
    | (Raise e, w') => h e w'
    end.

Notation "x <- m ;; k" := (bind m (fun x => k))
  (at level 100, m at next level, right associativity).
Notation "m ;;; k" := (bind m (fun _ => k))
  (at level 100, right associativity).

(** The calls of [pathlib] the tools make: [exists], [is_dir],
    [read_text(encoding='utf-8')], [write_text(data, encoding='utf-8')],
    [mkdir(parents, exist_ok)], and the names of [iterdir]. *)
Class Pathlib (W : Type) := {
  p_exists : PurePath -> io W bool;
  p_is_dir : PurePath -> io W bool;
  p_read_text : PurePath -> io W string;
  p_write_text : PurePath -> string -> io W nat;
  p_mkdir : PurePath -> bool -> bool -> io W unit;
  p_iterdir : PurePath -> io W (list string)
}.

(** *** The file system *)

(** A plain file with its bytes, a directory, or the null device,
    which takes whatever is written to it and has nothing to read, as
    [/dev/null]. *)
Inductive node := File (data : string) | Dir | Null.

#[global] Instance node_eq_dec : EqDecision node.
Proof. solve_decision. Defined.

Record filesystem := Filesystem {
  cwd : list string;
  nodes : gmap (list string) node
}.

Definition kind (fs : filesystem) (t : list string) : option node :=
  match t with
  | [] => Some Dir
  | _ => nodes fs !! t
  end.

Definition put (t : list string) (n : node) (fs : filesystem) : filesystem :=
  {| cwd := cwd fs; nodes := <[t := n]> (nodes fs) |}.

(** *** Resolution of a path by the system *)

(** One component from directory [d]: [..] goes up (the root is its own
    parent), a name goes down. *)
Definition enter (d : list string) (c : string) : list string :=
  if String.eqb c ".." then removelast d else d ++ [c].

(** The place a list of components designates from [d].  Every
    component but the last has to lead to a directory. *)
Fixpoint locate_from (fs : filesystem) (d : list string) (cs : list string)
  : oserror + list string :=
  match cs with
  | [] => inr d
  | [c] => inr (enter d c)
  | c :: cs' =>
      match kind fs (enter d c) with
      | Some Dir => locate_from fs (enter d c) cs'
      | Some _ => inl ENOTDIR
      | None => inl ENOENT
      end
  end.

Definition origin (fs : filesystem) (p : PurePath) : list string :=
  if absolute p then [] else cwd fs.

Definition locate (fs : filesystem) (p : PurePath) : oserror + list string :=
  locate_from fs (origin fs p) (parts p).

(** *** The calls of [pathlib] on the file system *)

Definition null_byte {A} : io filesystem A :=
  raise (ValueError "embedded null byte").

(** [os.stat(p)] *)
Definition stat (p : PurePath) : io filesystem node := fun fs =>
  if has_nul p then null_byte fs
  else match locate fs p with
       | inl k => (Raise (OSError k (str_path p)), fs)
       | inr t =>
           match kind fs t with
           | Some n => (Return n, fs)
           | None => (Raise (OSError ENOENT (str_path p)), fs)
           end
       end.

(** In [exists] and [is_dir], [pathlib] ignores the errors [ENOENT],
    [ENOTDIR], [EBADF] (9) and [ELOOP] (40) and any [ValueError] (the
    decoding and codec errors are of that class), and lets any other
    error through (Python 3.8 to 3.12; from 3.13 on
    [exists] ignores every [OSError]: the two agree on the errors that
    this file system gives). *)
Definition ignore_error (e : exn) : io filesystem bool :=
  match e with
  | OSError ENOENT _ | OSError ENOTDIR _ => ret false
  | OSError (Errno number _) _ =>
      if (number =? 9)%nat || (number =? 40)%nat then ret false else raise e
  | ValueError _ | JSONDecodeError _ => ret false
  | UnicodeDecodeError _ | UnicodeEncodeError _ => ret false
  | _ => raise e
  end.

(** [p.exists()] *)
Definition path_exists (p : PurePath) : io filesystem bool :=
  try_except (stat p ;;; ret true) ignore_error.

(** [p.is_dir()] *)
Definition is_dir (p : PurePath) : io filesystem bool :=
  try_except
    (n <- stat p ;; ret (match n with Dir => true | _ => false end))
    ignore_error.

(** Reading in text mode turns [\r\n] and a lone [\r] into [\n]. *)
Fixpoint universal_newlines (s : string) : string :=
  match s with
  | EmptyString => EmptyString
  | String c s' =>
      if Ascii.eqb c CR then
        String LF
          match s' with
          | String c' s'' =>
              if Ascii.eqb c' LF then universal_newlines s''
              else universal_newlines s'
          | EmptyString => EmptyString
          end
      else String c (universal_newlines s')
  end.

(** [p.read_text(encoding='utf-8')]: the bytes of the file are decoded,
    which fails when they are not UTF-8. *)
Definition read_text (p : PurePath) : io filesystem string :=
  n <- stat p ;;
  match n with
  | Dir => raise (OSError EISDIR (str_path p))
  | File data =>
      if valid_utf8 data then ret (universal_newlines data)
      else raise (UnicodeDecodeError data)
  | Null => ret EmptyString
  end.

(** [p.write_text(data, encoding='utf-8')]: the file is opened for
    writing, which creates or empties it, and then the text is encoded
    and written; on POSIX [\n] is written as it is.  When the text has
    no encoding, the file is left empty.  The null device keeps
    nothing. *)
Definition write_text (p : PurePath) (data : string) : io filesystem nat :=
  fun fs =>
    if has_nul p then null_byte fs
    else match locate fs p with
         | inl k => (Raise (OSError k (str_path p)), fs)
         | inr t =>
             match kind fs t with
             | Some Dir => (Raise (OSError EISDIR (str_path p)), fs)
             | Some Null =>
                 if valid_utf8 data then (Return (char_count data), fs)
                 else (Raise (UnicodeEncodeError data), fs)
             | _ =>
                 if valid_utf8 data then
                   (Return (char_count data), put t (File data) fs)
                 else
                   (Raise (UnicodeEncodeError data),
                    put t (File EmptyString) fs)
             end
         end.

(** [os.mkdir(p)] *)
Definition os_mkdir (p : PurePath) : io filesystem unit := fun fs =>
  if has_nul p then null_byte fs
  else match locate fs p with
       | inl k => (Raise (OSError k (str_path p)), fs)
       | inr t =>
           match kind fs t with
           | Some _ => (Raise (OSError EEXIST (str_path p)), fs)
           | None => (Return tt, put t Dir fs)
           end
       end.

(** The [except OSError] arm of [Path.mkdir]:
    [if not exist_ok or not self.is_dir(): raise]. *)
Definition already_there (p : PurePath) (exist_ok : bool) (e : exn)
  : io filesystem unit :=
  d <- (if exist_ok then is_dir p else ret false) ;;
  if (d : bool) then ret tt else raise e.

(** [p.mkdir(parents=False, exist_ok=exist_ok)] *)
Definition mkdir_once (p : PurePath) (exist_ok : bool) : io filesystem unit :=
  try_except (os_mkdir p)
    (fun e =>
       match e with
       | OSError ENOENT _ => raise e
       | OSError _ _ => already_there p exist_ok e
       | _ => raise e
       end).

(** [p.mkdir(parents=True, exist_ok=exist_ok)], where [p] has the
    components [reverse rparts]: when a directory on the way is missing,
    the parent is made first (with [exist_ok=True]) and the call is
    repeated without [parents]. *)
Fixpoint mkdir_parents (a : root_kind) (rparts : list string) (exist_ok : bool)
  : io filesystem unit :=
  let self := {| anchor := a; parts := reverse rparts |} in
  try_except (os_mkdir self)
    (fun e =>
       match e with
       | OSError ENOENT _ =>
           match rparts with
           | [] => raise e
           | _ :: rparent =>
               mkdir_parents a rparent true ;;; mkdir_once self exist_ok
           end
       | OSError _ _ => already_there self exist_ok e
       | _ => raise e
       end).

(** [p.mkdir(parents=parents, exist_ok=exist_ok)] *)
Definition mkdir (p : PurePath) (parents exist_ok : bool)
  : io filesystem unit :=
  if parents then mkdir_parents (anchor p) (reverse (parts p)) exist_ok
  else mkdir_once p exist_ok.

(** The names in the directory at place [t]. *)
Definition children (fs : filesystem) (t : list string) : list string :=
  omap (fun kn : list string * node =>
          match kn.1 with
          | [] => None
          | k => if decide (removelast k = t) then last k else None
          end)
       (map_to_list (nodes fs)).

(** [os.listdir(p)], the names behind [p.iterdir()]. *)
Definition iterdir (p : PurePath) : io filesystem (list string) := fun fs =>
  if has_nul p then null_byte fs
  else match locate fs p with
       | inl k => (Raise (OSError k (str_path p)), fs)
       | inr t =>
           match kind fs t with
           | Some Dir => (Return (children fs t), fs)
           | Some _ => (Raise (OSError ENOTDIR (str_path p)), fs)
           | None => (Raise (OSError ENOENT (str_path p)), fs)
           end
       end.

(** The model as an instance of the interface. *)
#[global] Instance posix : Pathlib filesystem := {|
  p_exists := path_exists;
  p_is_dir := is_dir;
  p_read_text := read_text;
  p_write_text := write_text;
  p_mkdir := mkdir;
  p_iterdir := iterdir
|}.

End Fs.

(** ** The tool functions of [MCPIntegration] *)

Module Tools.
Import Py Text Fs.

(** The sandbox root, [Path("workspace")], relative to the working
    directory. *)
Definition workspace : PurePath := Path "workspace".

Section OverPathlib.

Context {M : Messages} {W : Type} {P : Pathlib W}.

(** [read_file(file_path)] *)
Definition read_file (file_path : string) : io W string :=
  try_except
    (let workspace_path := truediv workspace (Path file_path) in
     found <- p_exists workspace_path ;;
     if (found : bool) then p_read_text workspace_path
     else ret ("File not found: " +:+ file_path))
    (fun e => ret ("Error reading file: " +:+ str e)).

(** [write_file(file_path, content)] *)
Definition write_file (file_path content : string) : io W string :=
  try_except
    (let workspace_path := truediv workspace (Path file_path) in
     p_mkdir (parent workspace_path) true true ;;;
     p_write_text workspace_path content ;;;
     ret ("File written successfully: " +:+ file_path))
    (fun e => ret ("Error writing file: " +:+ str e)).

(** [list_files(directory)] *)
Definition list_files (directory : string) : io W string :=
  try_except
    (let workspace_path := truediv workspace (Path directory) in
     found <- p_exists workspace_path ;;
     isdir <- (if (found : bool) then p_is_dir workspace_path
               else ret false) ;;
     if (isdir : bool) then
       files <- p_iterdir workspace_path ;;
       ret ("Files in " +:+ directory +:+ ": " +:+ join ", " files)
     else ret ("Directory not found: " +:+ directory))
    (fun e => ret ("Error listing files: " +:+ str e)).

End OverPathlib.

End Tools.

(** ** [MCPIntegration]: configuration and registry *)

Module MCPIntegration.
Import Py.

(** What is found at [config_path]: nothing, a text that is not JSON,
    or a JSON document. *)
Inductive resource :=
| Missing
| Unparsable (msg : string)
| Document (config : json).

Record MCPIntegration := {
  config_path : string;
  servers : json
}.

(** [load_config]: a present file is parsed and its [servers] entry
    (or [{}]) is stored, then its size is logged; an absent file is
    only warned about and [servers] stays as it was. *)
Definition load_config (found : resource) (self : MCPIntegration)
  : outcome MCPIntegration :=
  match found with
  | Document config =>
      servers' <~ get config "servers" (JObj []) ;;
      _ <~ len servers' ;;
      Return {| config_path := config_path self; servers := servers' |}
  | Unparsable msg => Raise (JSONDecodeError msg)
  | Missing => Return self
  end.

(** [MCPIntegration(config_path)] *)
Definition init (found : resource) (path : string) : outcome MCPIntegration :=
  load_config found {| config_path := path; servers := JObj [] |}.

(** The loop of [get_available_tools] over [servers.items()], with the
    list [tools] built so far. *)
Fixpoint get_available_tools_loop
  (entries : list (string * json)) (tools : list (dict json))
  : outcome (list (dict json)) :=
  match entries with
  | [] => Return tools
  | (server_name, server_config) :: rest =>
      description <~ get server_config "description" (JStr "") ;;
      command <~ get server_config "command" (JStr "") ;;
      args <~ get server_config "args" (JArr []) ;;
      get_available_tools_loop rest
        (tools ++ [dict_of [("name", JStr server_name);
                            ("description", description);
                            ("command", command);
                            ("args", args)]])
  end.

Definition get_available_tools (self : MCPIntegration)
  : outcome (list (dict json)) :=
  entries <~ items (servers self) ;;
  get_available_tools_loop entries [].

(** The tool functions, one tag for each closure the class creates. *)
Inductive tool :=
| read_file
| write_file
| list_files
| github_search
| github_list_repos
| github_get_file.

#[global] Instance tool_eq_dec : EqDecision tool.
Proof. solve_decision. Defined.

(** [f.__name__] *)
Definition tool_name (f : tool) : string :=
  match f with
  | read_file => "read_file"
  | write_file => "write_file"
  | list_files => "list_files"
  | github_search => "github_search"
  | github_list_repos => "github_list_repos"
  | github_get_file => "github_get_file"
  end.

Definition create_tool_functions (self : MCPIntegration)
  : outcome (dict tool) :=
  let functions : dict tool := [] in
  with_fs <~ has "fs" (servers self) ;;
  let functions :=
    if (with_fs : bool) then
      let functions := dict_set functions "read_file" read_file in
      let functions := dict_set functions "write_file" write_file in
      dict_set functions "list_files" list_files
    else functions in
  with_github <~ has "github" (servers self) ;;
  let functions :=
    if (with_github : bool) then
      let functions := dict_set functions "github_search" github_search in
      let functions :=
        dict_set functions "github_list_repos" github_list_repos in
      dict_set functions "github_get_file" github_get_file
    else functions in
  Return functions.

(** The GitHub tool functions answer with fixed text. *)
Definition do_github_search (query : string) : string :=
  "GitHub search results for '" +:+ query
  +:+ "': [Connected via MCP GitHub server]".

Definition do_github_list_repos (username : option string) : string :=
  match username with
  | Some u =>
      if String.eqb u "" then
        "Listing your repositories: [Connected via MCP GitHub server]"
      else "Listing repositories for user '" +:+ u
           +:+ "': [Connected via MCP GitHub server]"
  | None => "Listing your repositories: [Connected via MCP GitHub server]"
  end.

Definition do_github_get_file (repo file_path branch : string) : string :=
  "Getting file '" +:+ file_path +:+ "' from repository '" +:+ repo
  +:+ "' (branch: " +:+ branch +:+ "): [Connected via MCP GitHub server]".

End MCPIntegration.

(** ** [MultiAgentSystem]: agents and teams *)

Module MultiAgentSystem.
Import Py MCPIntegration.

(** The model client is an opaque handle; it is known by what it was
    configured with. *)
Record ChatCompletionClient := {
  client_model : string;
  client_api_key : string;
  client_base_url : string
}.

Record GroqModelClient := {
  api_key : string;
  model : string;
  client : ChatCompletionClient
}.

(** [GroqModelClient(api_key, model)]; [getenv] is the value of
    [GROQ_API_KEY] in the environment. *)
Definition truthy (s : option string) : bool :=
  match s with
  | Some s => negb (String.eqb s "")
  | None => false
  end.

Definition new_GroqModelClient
  (getenv : option string) (api_key : option string) (model : string)
  : outcome GroqModelClient :=
  let api_key := if truthy api_key then api_key else getenv in
  match api_key with
  | Some key =>
      if String.eqb key "" then
        Raise (ValueError "GROQ_API_KEY environment variable is required")
      else
        Return {| api_key := key;
                  model := model;
                  client := {| client_model := model;
                               client_api_key := key;
                               client_base_url :=
                                 "https://api.groq.com/openai/v1" |} |}
  | None => Raise (ValueError "GROQ_API_KEY environment variable is required")
  end.

Definition get_client (self : GroqModelClient) : ChatCompletionClient :=
  client self.

Record AgentConfig := {
  name : string;
  role : string;
  system_message : string;
  model_client : ChatCompletionClient
}.

(** An [AssistantAgent], known by the arguments it was made with. *)
Record AssistantAgent := {
  agent_name : string;
  agent_model_client : ChatCompletionClient;
  agent_system_message : string;
  tools : list tool
}.

Record RoundRobinGroupChat := {
  participants : list AssistantAgent;
  max_messages : nat
}.

Record MultiAgentSystem := {
  groq_client : GroqModelClient;
  mcp_integration : MCPIntegration;
  agents : dict AssistantAgent;
  team : option RoundRobinGroupChat;
  tool_functions : dict tool
}.

(** What the process finds when it starts. *)
Record environment := {
  GROQ_API_KEY : option string;
  mcp_servers_json : resource
}.

(** [MultiAgentSystem(groq_api_key)] *)
Definition init (env : environment) (groq_api_key : option string)
  : outcome MultiAgentSystem :=
  groq <~ new_GroqModelClient (GROQ_API_KEY env) groq_api_key
            "llama3-8b-8192" ;;
  mcp <~ MCPIntegration.init (mcp_servers_json env) "mcp_servers.json" ;;
  functions <~ create_tool_functions mcp ;;
  Return {| groq_client := groq;
            mcp_integration := mcp;
            agents := [];
            team := None;
            tool_functions := functions |}.

(** The six usage hints of the prompt, as the source lists them. *)
Definition usage_hints : list string :=
  [ "        - read_file(file_path): Read file contents from workspace";
    "        - write_file(file_path, content): Write content to files in workspace";
    "        - list_files(directory): List files in workspace directory";
    "        - github_search(query): Search GitHub repositories";
    "        - github_list_repos(username): List GitHub repositories";
    "        - github_get_file(repo, file_path, branch): Get file contents from GitHub repo" ].

(** The formatted string literal of [create_agent]. *)
Definition enhanced_system_message
  (system_message : string) (available_tools : list string) : string :=
  unlines
    ([ "";
       "        " +:+ system_message;
       "        ";
       "        Available tools: " +:+ join ", " available_tools;
       "        ";
       "        You can use these tools to accomplish tasks:" ]
     ++ usage_hints ++
     [ "        ";
       "        Always collaborate effectively with other agents and provide clear, actionable responses.";
       "        " ]).

(** [create_agent(config)]; the agent is made by the constructor of the
    agent library from the four arguments given. *)
Definition create_agent (self : MultiAgentSystem) (config : AgentConfig)
  : outcome AssistantAgent :=
  let available_tools := keys (tool_functions self) in
  Return {| agent_name := name config;
            agent_model_client := model_client config;
            agent_system_message :=
              enhanced_system_message (system_message config) available_tools;
            tools := values (tool_functions self) |}.

(** *** The two presets *)

Definition research_agent_config (model_client : ChatCompletionClient) : AgentConfig :=
  {| name := "Researcher";
     role := "Research Specialist";
     system_message :=
       unlines
         [ "You are a research specialist agent. Your responsibilities include:";
           "            - Conducting thorough research on given topics";
           "            - Gathering information from multiple sources";
           "            - Analyzing and synthesizing research findings";
           "            - Providing well-structured, fact-based insights";
           "            - Using available tools for web searches and data retrieval";
           "            - Collaborating with other agents to provide comprehensive research support";
           "            ";
           "            Focus on accuracy, depth, and providing actionable insights." ];
     model_client := model_client |}.

Definition analysis_agent_config (model_client : ChatCompletionClient) : AgentConfig :=
  {| name := "Analyst";
     role := "Data Analyst";
     system_message :=
       unlines
         [ "You are a data analysis specialist. Your responsibilities include:";
           "            - Analyzing research data and findings";
           "            - Identifying patterns, trends, and insights";
           "            - Creating structured reports and summaries";
           "            - Providing data-driven recommendations";
           "            - Using file operations to save and retrieve analysis results";
           "            - Collaborating with researchers to validate findings";
           "            ";
           "            Focus on objectivity, statistical accuracy, and clear communication of insights." ];
     model_client := model_client |}.

Definition technical_agent_config (model_client : ChatCompletionClient) : AgentConfig :=
  {| name := "TechnicalExpert";
     role := "Technical Specialist";
     system_message :=
       unlines
         [ "You are a technical expert agent. Your responsibilities include:";
           "            - Providing technical expertise and solutions";
           "            - Evaluating technical feasibility of proposals";
           "            - Suggesting implementation approaches";
           "            - Creating technical documentation";
           "            - Using GitHub search to find relevant code and projects";
           "            - Collaborating with other agents on technical aspects";
           "            ";
           "            Focus on practical solutions, best practices, and technical accuracy." ];
     model_client := model_client |}.

Definition coordinator_agent_config (model_client : ChatCompletionClient) : AgentConfig :=
  {| name := "Coordinator";
     role := "Project Coordinator";
     system_message :=
       unlines
         [ "You are a project coordination specialist. Your responsibilities include:";
           "            - Coordinating tasks and workflows between agents";
           "            - Managing project timelines and priorities";
           "            - Ensuring effective communication and collaboration";
           "            - Synthesizing inputs from different agents";
           "            - Creating comprehensive project summaries";
           "            - Facilitating decision-making processes";
           "            ";
           "            Focus on organization, clarity, and ensuring all agents work together effectively." ];
     model_client := model_client |}.

Definition developer_agent_config (model_client : ChatCompletionClient) : AgentConfig :=
  {| name := "Developer";
     role := "Software Developer";
     system_message :=
       unlines
         [ "You are a software development specialist. Your responsibilities include:";
           "            - Writing high-quality code and scripts";
           "            - Reviewing and debugging code";
           "            - Implementing technical solutions";
           "            - Following coding best practices";
           "            - Using file operations to create and manage code files";
           "            - Collaborating with architects and testers";
           "            ";
           "            Focus on clean, efficient, and well-documented code." ];
     model_client := model_client |}.

Definition architect_agent_config (model_client : ChatCompletionClient) : AgentConfig :=
  {| name := "Architect";
     role := "Software Architect";
     system_message :=
       unlines
         [ "You are a software architecture specialist. Your responsibilities include:";
           "            - Designing system architecture and components";
           "            - Making technical decisions and trade-offs";
           "            - Creating technical specifications";
           "            - Ensuring scalability and maintainability";
           "            - Providing architectural guidance";
           "            - Collaborating with developers and stakeholders";
           "            ";
           "            Focus on robust, scalable, and maintainable solutions." ];
     model_client := model_client |}.

Definition tester_agent_config (model_client : ChatCompletionClient) : AgentConfig :=
  {| name := "Tester";
     role := "Quality Assurance";
     system_message :=
       unlines
         [ "You are a quality assurance specialist. Your responsibilities include:";
           "            - Creating test plans and test cases";
           "            - Identifying potential issues and edge cases";
           "            - Validating functionality and performance";
           "            - Ensuring code quality and reliability";
           "            - Creating testing documentation";
           "            - Collaborating with developers to resolve issues";
           "            ";
           "            Focus on comprehensive testing and quality assurance." ];
     model_client := model_client |}.

Definition devops_agent_config (model_client : ChatCompletionClient) : AgentConfig :=
  {| name := "DevOps";
     role := "DevOps Engineer";
     system_message :=
       unlines
         [ "You are a DevOps specialist. Your responsibilities include:";
           "            - Managing deployment and infrastructure";
           "            - Setting up CI/CD pipelines";
           "            - Monitoring and maintaining systems";
           "            - Ensuring security and performance";
           "            - Creating deployment documentation";
           "            - Collaborating with development and operations teams";
           "            ";
           "            Focus on automation, reliability, and operational excellence." ];
     model_client := model_client |}.

Definition with_team
  (self : MultiAgentSystem) (agents : dict AssistantAgent)
  (team : RoundRobinGroupChat) : MultiAgentSystem :=
  {| groq_client := groq_client self;
     mcp_integration := mcp_integration self;
     agents := agents;
     team := Some team;
     tool_functions := tool_functions self |}.

Definition setup_research_team (self : MultiAgentSystem)
  : outcome (MultiAgentSystem * RoundRobinGroupChat) :=
  let model_client := get_client (groq_client self) in
  research_agent <~ create_agent self (research_agent_config model_client) ;;
  analysis_agent <~ create_agent self (analysis_agent_config model_client) ;;
  technical_agent <~ create_agent self (technical_agent_config model_client) ;;
  coordinator_agent <~
    create_agent self (coordinator_agent_config model_client) ;;
  let agents := dict_of [("researcher", research_agent);
                         ("analyst", analysis_agent);
                         ("technical", technical_agent);
                         ("coordinator", coordinator_agent)] in
  let team := {| participants := values agents; max_messages := 20 |} in
  Return (with_team self agents team, team).

Definition setup_development_team (self : MultiAgentSystem)
  : outcome (MultiAgentSystem * RoundRobinGroupChat) :=
  let model_client := get_client (groq_client self) in
  developer_agent <~ create_agent self (developer_agent_config model_client) ;;
  architect_agent <~ create_agent self (architect_agent_config model_client) ;;
  tester_agent <~ create_agent self (tester_agent_config model_client) ;;
  devops_agent <~ create_agent self (devops_agent_config model_client) ;;
  let agents := dict_of [("developer", developer_agent);
                         ("architect", architect_agent);
                         ("tester", tester_agent);
                         ("devops", devops_agent)] in
  let team := {| participants := values agents; max_messages := 25 |} in
  Return (with_team self agents team, team).

(** [get_available_tools()] of the system: the names of the tool
    functions. *)
Definition get_available_tools (self : MultiAgentSystem) : list string :=
  keys (tool_functions self).

(** [get_mcp_servers()] *)
Definition get_mcp_servers (self : MultiAgentSystem) : json :=
  servers (mcp_integration self).

(** [s.title()] on ASCII text: the first letter of every run of letters
    in upper case, the others in lower case. *)
Definition is_upper (c : ascii) : bool :=
  (65 <=? nat_of_ascii c)%nat && (nat_of_ascii c <=? 90)%nat.

Definition is_lower (c : ascii) : bool :=
  (97 <=? nat_of_ascii c)%nat && (nat_of_ascii c <=? 122)%nat.

Definition to_upper (c : ascii) : ascii :=
  if is_lower c then ascii_of_nat (nat_of_ascii c - 32) else c.

Definition to_lower (c : ascii) : ascii :=
  if is_upper c then ascii_of_nat (nat_of_ascii c + 32) else c.

Fixpoint title_from (in_word : bool) (s : string) : string :=
  match s with
  | EmptyString => EmptyString
  | String c s' =>
      if is_upper c || is_lower c then
        String (if in_word then to_lower c else to_upper c)
          (title_from true s')
      else String c (title_from false s')
  end.

Definition title (s : string) : string := title_from false s.

(** [s * n] *)
Fixpoint times (s : string) (n : nat) : string :=
  match n with
  | 0 => EmptyString
  | S n' => s +:+ times s n'
  end.

(** [start_conversation(task, team_type)]: the team is set up, and the
    answer says that it is ready; no turn of the conversation is run.
    The call gives the system as it is left, the lines printed, and
    the dictionary returned.  (What goes to the log file is left
    out.) *)
Definition start_conversation
  (self : MultiAgentSystem) (task team_type : string)
  : outcome (MultiAgentSystem * list string * dict json) :=
  setup <~
    (if String.eqb team_type "research" then setup_research_team self
     else if String.eqb team_type "development" then
            setup_development_team self
          else Raise (ValueError ("Unknown team type: " +:+ team_type))) ;;
  let self := setup.1 in
  let printed1 :=
    [ newline +:+ "🚀 Starting " +:+ team_type +:+ " team conversation...";
      "Task: " +:+ task;
      newline +:+ times "=" 60 ] in
  let result : dict json :=
    dict_of
      [("status", JStr "success");
       ("message",
        JStr (title team_type
              +:+ " team is ready and configured with MCP tools"));
       ("team_size", JNum (Z.of_nat (length (agents self))));
       ("available_tools", JArr (JStr <$> get_available_tools self))] in
  let printed2 :=
    [ "✅ " +:+ title team_type +:+ " team ready with "
      +:+ pretty (length (agents self)) +:+ " agents";
      "✅ " +:+ pretty (length (get_available_tools self))
      +:+ " MCP tools available";
      newline +:+ "💡 Team can now collaborate on tasks using:" ]
    ++ ((λ tool, "   - " +:+ tool) <$> get_available_tools self) in
  Return (self, printed1 ++ printed2, result).

End MultiAgentSystem.

(** ** The turn loop *)

Module Orchestrator.
Import Py MultiAgentSystem.

(** Modelled from the spec: a message of the conversation log
    (section 3; the time stamp is left out). *)
Record Message := {
  speaker : string;
  content : string;
  sequenceNumber : nat
}.

(** Modelled from the spec: the states of the Orchestrator. *)
Inductive status := Idle | Running | Terminated | Cancelled.

(** Modelled from the spec: where a session stands. *)
Record state := {
  phase : status;
  turnNumber : nat;
  log : list Message
}.

Section Turns.

(** The model client of an agent, given the history: the next message,
    or nothing when the service fails. *)
Variable produce : AssistantAgent -> list Message -> option string.

(** Whether a cancel signal has arrived when turn [n] is about to
    start. *)
Variable cancel : nat -> bool.

Variable team : RoundRobinGroupChat.

(** Modelled from the spec: the end of a session, with the log it has. *)
Definition stop (final : status) (st : state) (log' : list Message) : state :=
  {| phase := final; turnNumber := turnNumber st; log := log' |}.

(** Modelled from the spec: one turn of the Orchestrator (section 4.4,
    steps 1 to 4, with cancellation between turns and a failing model
    client).  The source only builds the [RoundRobinGroupChat] and
    hands it to the agent library; the loop that runs it is not in the
    repository. *)
Definition turn (st : state) : state :=
  match phase st with
  | Running =>
      if cancel (turnNumber st) then stop Cancelled st (log st)
      else
        let index := turnNumber st mod length (participants team) in
        match participants team !! index with
        | None => stop Terminated st (log st)
        | Some agent =>
            match produce agent (log st) with
            | None => stop Terminated st (log st)
            | Some text =>
                let message := {| speaker := agent_name agent;
                                  content := text;
                                  sequenceNumber := length (log st) |} in
                let log' := log st ++ [message] in
                if (max_messages team <=? length log')%nat
                then stop Terminated st log'
                else {| phase := Running;
                        turnNumber := S (turnNumber st);
                        log := log' |}
            end
        end
  | _ => st
  end.

(** Modelled from the spec: the state [Running] entered on [start]. *)
Definition start : state :=
  {| phase := Running; turnNumber := 0; log := [] |}.

(** Modelled from the spec: the loop, for at most [n] turns. *)
Fixpoint run (n : nat) (st : state) : state :=
  match n with
  | 0 => st
  | S n' => run n' (turn st)
  end.

(** Modelled from the spec: a whole session.  No more than
    [max_messages] turns are ever needed. *)
Definition session : state := run (max_messages team) start.

End Turns.

End Orchestrator.

(** ** [create_github_repo.py]: the token in the configuration *)

Module CreateGithubRepo.
Import Py MCPIntegration.

(** [get_github_token()]: the value under
    [servers.github.env.GITHUB_PERSONAL_ACCESS_TOKEN] of the
    descriptor, [None] ([JNull]) when a level is missing or there is no
    file. *)
Definition get_github_token (found : resource) : outcome json :=
  match found with
  | Document config =>
      servers <~ get config "servers" (JObj []) ;;
      github <~ get servers "github" (JObj []) ;;
      env <~ get github "env" (JObj []) ;;
      get env "GITHUB_PERSONAL_ACCESS_TOKEN" JNull
  | Unparsable msg => Raise (JSONDecodeError msg)
  | Missing => Return JNull
  end.

End CreateGithubRepo.

(** ** Notions used to state the properties *)

Module FileNotions.
Import Py Text Fs Tools.

(** What a path leads to, if anything. *)
Definition found (fs : filesystem) (p : PurePath) : option node :=
  match locate fs p with
  | inr t => kind fs t
  | inl _ => None
  end.

(** Going down through directories only: [locate_from] checks every
    component but the last in this way. *)
Fixpoint descend (fs : filesystem) (d : list string) (cs : list string)
  : oserror + list string :=
  match cs with
  | [] => inr d
  | c :: cs' =>
      match kind fs (enter d c) with
      | Some Dir => descend fs (enter d c) cs'
      | Some _ => inl ENOTDIR
      | None => inl ENOENT
      end
  end.

(** What [write_file] answers when it has written. *)
Definition success (path : string) : string :=
  "File written successfully: " +:+ path.

(** Components that are names: none of them is [..]. *)
Definition plain (cs : list string) : Prop := Forall (λ c, c ≠ "..") cs.

(** A relative path without [..]. *)
Definition stays_inside (p : PurePath) : bool :=
  negb (absolute p) && forallb (λ c, negb (String.eqb c "..")) (parts p).

(** Nothing but a directory stands where the path needs one. *)
Fixpoint passable (fs : filesystem) (d : list string) (cs : list string)
  : bool :=
  match cs with
  | [] => true
  | c :: cs' =>
      match kind fs (d ++ [c]) with
      | Some Dir | None => passable fs (d ++ [c]) cs'
      | Some _ => false
      end
  end.

(** The directory at [t] is there in [fs']: it was already, or it has
    just been made. *)
Definition made (t : list string) (fs fs' : filesystem) : Prop :=
  (kind fs t = Some Dir ∧ fs' = fs)
  ∨ (kind fs t = None ∧ fs' = put t Dir fs).

(** [path] names a file under [workspace] by names only, nothing but
    a directory stands where a directory is needed, and no directory
    stands where the file goes. *)
Definition clear_way (fs : filesystem) (path : string) : bool :=
  let cs := "workspace" :: parts (Path path) in
  stays_inside (Path path)
  && negb (has_nul (Path path))
  && bool_decide (parts (Path path) ≠ [])
  && passable fs (cwd fs) (removelast cs)
  && bool_decide (kind fs (cwd fs ++ cs) ≠ Some Dir).

(** The limits of Linux on names: at most [NAME_MAX] bytes in a
    component, less than [PATH_MAX] in a path.  The model of the file
    system sets no limit, where the system answers [ENAMETOOLONG]
    beyond these; what is said of the outcome of a call on a path is
    said for paths within them. *)
Definition NAME_MAX : nat := 255.
Definition PATH_MAX : nat := 4096.

Definition within_limits (p : PurePath) : bool :=
  forallb (λ c, (String.length c <=? NAME_MAX)%nat) (parts p)
  && (String.length (str_path p) <? PATH_MAX)%nat.

(** Nothing of [fs] is lost in [fs']: every entry is still there. *)
Definition extends (fs fs' : filesystem) : Prop :=
  cwd fs' = cwd fs
  ∧ ∀ t n, nodes fs !! t = Some n → nodes fs' !! t = Some n.

(** Directories stay directories from [fs] to [fs']. *)
Definition keeps_directories (fs fs' : filesystem) : Prop :=
  ∀ t, kind fs t = Some Dir → kind fs' t = Some Dir.

End FileNotions.

Module SystemNotions.
Import Py MCPIntegration MultiAgentSystem Orchestrator.

(** The two fixed sets of tool functions. *)
Definition fs_tools : dict tool :=
  [("read_file", read_file); ("write_file", write_file);
   ("list_files", list_files)].

Definition github_tools : dict tool :=
  [("github_search", github_search);
   ("github_list_repos", github_list_repos);
   ("github_get_file", github_get_file)].

(** A set of tools, present or not. *)
Definition group (present : bool) (set : dict tool) : dict tool :=
  if present then set else [].

(** The registry built from the mapping [servers]. *)
Definition registry_of (path : string) (servers : dict json)
  : outcome (dict tool) :=
  create_tool_functions {| config_path := path; servers := JObj servers |}.

(** A descriptor set is well formed when it is a mapping from names to
    mappings. *)
Definition well_formed (servers : json) : bool :=
  match servers with
  | JObj o => forallb is_dict (values o)
  | _ => false
  end.

(** [config.get("description", "")] on a server that is a mapping. *)
Definition description_of (server_config : json) : json :=
  match server_config with
  | JObj c => default (JStr "") (dict_lookup c "description")
  | _ => JStr ""
  end.

(** The entry [get_available_tools] makes for a server that is a
    mapping. *)
Definition entry_of (kv : string * json) : dict json :=
  match kv.2 with
  | JObj c =>
      [("name", JStr kv.1);
       ("description", default (JStr "") (dict_lookup c "description"));
       ("command", default (JStr "") (dict_lookup c "command"));
       ("args", default (JArr []) (dict_lookup c "args"))]
  | _ => []
  end.

(** The value stored by a document whose top level is the mapping [o]. *)
Definition servers_of (o : dict json) : json :=
  default (JObj []) (dict_lookup o "servers").

(** The agent is bound to every tool function of the system. *)
Definition bound_to_all (self : MultiAgentSystem) (agent : AssistantAgent)
  : Prop :=
  tools agent = values (tool_functions self).

(** The agent whose turn it is at turn [i]. *)
Definition active (team : RoundRobinGroupChat) (i : nat) : option AssistantAgent :=
  participants team !! (i mod length (participants team)).

(** Every message of the log was produced by the agent whose turn it
    was, and is numbered by its place. *)
Definition in_order (team : RoundRobinGroupChat) (l : list Message) : Prop :=
  ∀ i m, l !! i = Some m →
    ∃ agent, active team i = Some agent
             ∧ speaker m = agent_name agent
             ∧ sequenceNumber m = i.

(** A state of a run started from [start]. *)
Definition consistent (team : RoundRobinGroupChat) (st : state) : Prop :=
  (phase st = Running → turnNumber st = length (log st))
  ∧ in_order team (log st).

(** The names of the two sets of tool functions. *)
Definition fs_names : list string :=
  ["read_file"; "write_file"; "list_files"].

Definition github_names : list string :=
  ["github_search"; "github_list_repos"; "github_get_file"].

(** What [v.get(k, {})] gives when [v] is a mapping. *)
Definition level (k : string) (v : json) : json :=
  match v with
  | JObj o => default (JObj []) (dict_lookup o k)
  | _ => JObj []
  end.

(** The bound on messages each preset gives its team. *)
Definition preset_max_messages (team_type : string) : nat :=
  if String.eqb team_type "research" then 20 else 25.

(** The four requests of each preset, under the keys the system keeps
    the agents by, in the order in which the agents are made. *)
Definition preset_requests
  (team_type : string) (model_client : ChatCompletionClient)
  : dict AgentConfig :=
  if String.eqb team_type "research" then
    [("researcher", research_agent_config model_client);
     ("analyst", analysis_agent_config model_client);
     ("technical", technical_agent_config model_client);
     ("coordinator", coordinator_agent_config model_client)]
  else
    [("developer", developer_agent_config model_client);
     ("architect", architect_agent_config model_client);
     ("tester", tester_agent_config model_client);
     ("devops", devops_agent_config model_client)].

(** The agent kept under a key is the one [create_agent] makes of the
    request under that key. *)
Definition made_from
  (self : MultiAgentSystem)
  (kept : string * AssistantAgent) (request : string * AgentConfig) : Prop :=
  kept.1 = request.1 ∧ create_agent self request.2 = Return kept.2.

End SystemNotions.

(** ** Inputs used in examples *)

Module Cases.
Import Py Fs MCPIntegration MultiAgentSystem Orchestrator.

Definition fs_server : json :=
  JObj [("command", JStr "npx");
        ("args", JArr [JStr "-y"; JStr "@modelcontextprotocol/server-filesystem";
                       JStr "./workspace"]);
        ("description", JStr "File system operations")].

Definition github_server : json :=
  JObj [("command", JStr "npx");
        ("args", JArr [JStr "-y"; JStr "@modelcontextprotocol/server-github"]);
        ("description", JStr "GitHub repository operations");
        ("env", JObj [("GITHUB_PERSONAL_ACCESS_TOKEN", JStr "token")])].

Definition fs_only : dict json := [("fs", fs_server)].
Definition fs_and_github : dict json :=
  [("fs", fs_server); ("github", github_server)].

Definition descriptor (servers : dict json) : resource :=
  Document (JObj [("servers", JObj servers)]).

Definition env_without_descriptor : environment :=
  {| GROQ_API_KEY := Some "gsk_key"; mcp_servers_json := Missing |}.

Definition env_fs_only : environment :=
  {| GROQ_API_KEY := Some "gsk_key"; mcp_servers_json := descriptor fs_only |}.

Definition groq : GroqModelClient :=
  {| api_key := "gsk_key";
     model := "llama3-8b-8192";
     client := {| client_model := "llama3-8b-8192";
                  client_api_key := "gsk_key";
                  client_base_url := "https://api.groq.com/openai/v1" |} |}.

(** The system that [init] builds when there is no descriptor file. *)
Definition system_without_descriptor : MultiAgentSystem :=
  {| groq_client := groq;
     mcp_integration := {| config_path := "mcp_servers.json";
                           servers := JObj [] |};
     agents := [];
     team := None;
     tool_functions := [] |}.

(** The system that [init] builds from a descriptor with the [fs]
    server only. *)
Definition system_fs_only : MultiAgentSystem :=
  {| groq_client := groq;
     mcp_integration := {| config_path := "mcp_servers.json";
                           servers := JObj fs_only |};
     agents := [];
     team := None;
     tool_functions := [("read_file", read_file);
                        ("write_file", write_file);
                        ("list_files", list_files)] |}.

(** A request whose base prompt names a GitHub tool. *)
Definition scout : AgentConfig :=
  {| name := "Scout";
     role := "Repository scout";
     system_message := "Use github_search to find repositories.";
     model_client := client groq |}.

(** The agent [create_agent] makes of [scout] in the system without
    descriptor, and in the system with the [fs] server only. *)
Definition scout_without_tools : AssistantAgent :=
  {| agent_name := "Scout";
     agent_model_client := client groq;
     agent_system_message :=
       enhanced_system_message "Use github_search to find repositories." [];
     tools := [] |}.

Definition scout_with_file_tools : AssistantAgent :=
  {| agent_name := "Scout";
     agent_model_client := client groq;
     agent_system_message :=
       enhanced_system_message "Use github_search to find repositories."
         ["read_file"; "write_file"; "list_files"];
     tools := [read_file; write_file; list_files] |}.

(** A project directory [/home/user] with nothing in it. *)
Definition empty_project : filesystem :=
  {| cwd := ["home"; "user"];
     nodes := {[ ["home"] := Dir; ["home"; "user"] := Dir ]} |}.

(** The same with an empty [workspace] directory. *)
Definition fresh_workspace : filesystem :=
  put ["home"; "user"; "workspace"] Dir empty_project.

(** The same with a file [workspace/menu.txt] whose bytes are Latin-1,
    not UTF-8, and a text that has no UTF-8 encoding: it ends with the
    lone surrogate that escapes the byte [0xff]. *)
Definition latin1_menu : filesystem :=
  put ["home"; "user"; "workspace"; "menu.txt"]
    (File ("caf" +:+ String "233" EmptyString)) fresh_workspace.

Definition unencodable : string := "bad" +:+ String "255" EmptyString.

(** The project with its [workspace] and the null device at
    [/dev/null]. *)
Definition with_null_device : filesystem :=
  put ["dev"; "null"] Null (put ["dev"] Dir fresh_workspace).

(** The research team of [system_fs_only]. *)
Definition research_team : RoundRobinGroupChat :=
  match setup_research_team system_fs_only with
  | Return (_, team) => team
  | Raise _ => {| participants := []; max_messages := 0 |}
  end.

(** A model client that answers with the name of its agent, and a
    session that nobody cancels. *)
Definition says_name (agent : AssistantAgent) (history : list Message)
  : option string :=
  Some ("I am " +:+ agent_name agent).

Definition never (turn : nat) : bool := false.

End Cases.

(** * Properties *)

(** ** The registry *)

Module Registry.
Import Py MCPIntegration MultiAgentSystem SystemNotions Cases.

Lemma elem_of_keys_dict_set {V} (d : dict V) k v x :
  x ∈ keys (dict_set d k v) ↔ x = k ∨ x ∈ keys d.
Proof.
  unfold keys. induction d as [|[k' v'] d IH]; simpl.
  - rewrite list_elem_of_singleton, elem_of_nil. naive_solver.
  - case_decide; subst; simpl; rewrite !elem_of_cons; [|rewrite IH];
      naive_solver.
Qed.

Lemma registry_of_groups path s :
  registry_of path s =
    Return (group (dict_mem "fs" s) fs_tools
            ++ group (dict_mem "github" s) github_tools).
Proof.
  unfold registry_of, create_tool_functions. simpl.
  destruct (dict_mem "fs" s), (dict_mem "github" s); reflexivity.
Qed.

(** C5.  The registry is built from group membership alone: the three
    file tools are there exactly when [servers] has the key [fs], the
    three GitHub tools exactly when it has the key [github], in that
    order, and setting any other key changes nothing and raises
    nothing. *)
Theorem create_tool_functions_by_group (path : string) (o : dict json) :
  registry_of path o =
    Return (group (dict_mem "fs" o) fs_tools
            ++ group (dict_mem "github" o) github_tools)
  ∧ ∀ k v, k ≠ "fs" → k ≠ "github" →
      registry_of path (dict_set o k v) = registry_of path o.
Proof.
  split; [apply registry_of_groups|].
  intros k v Hfs Hgh. rewrite !registry_of_groups. unfold dict_mem.
  do 2 f_equal; f_equal; apply bool_decide_ext;
    rewrite elem_of_keys_dict_set; naive_solver.
Qed.

Lemma create_tool_functions_by_group_witness :
  "web" ≠ "fs" ∧ "web" ≠ "github"
  ∧ registry_of "mcp_servers.json" (dict_set fs_only "web" (JObj []))
    = registry_of "mcp_servers.json" fs_only.
Proof.
  split; [done|]. split; [done|].
  apply (create_tool_functions_by_group "mcp_servers.json" fs_only); done.
Defined.

Lemma get_available_tools_loop_spec entries tools :
  forallb is_dict (values entries) = true →
  get_available_tools_loop entries tools
  = Return (tools ++ (entry_of <$> entries)).
Proof.
  revert tools. induction entries as [|[k cfg] entries IH]; intros tools Hwf.
  - simpl. by rewrite app_nil_r.
  - simpl in Hwf. apply andb_prop in Hwf as [Hcfg Hrest].
    destruct cfg; try discriminate. simpl.
    rewrite IH by done. by rewrite <- app_assoc.
Qed.

Lemma entry_of_name entries :
  forallb is_dict (values entries) = true →
  (λ t : dict json, dict_lookup t "name") <$> (entry_of <$> entries)
  = (λ k, Some (JStr k)) <$> keys entries.
Proof.
  induction entries as [|[k cfg] entries IH]; intros Hwf; [done|].
  simpl in Hwf. apply andb_prop in Hwf as [Hcfg Hrest].
  destruct cfg; try discriminate. simpl. f_equal. by apply IH.
Qed.

Lemma entry_of_description entries :
  forallb is_dict (values entries) = true →
  (λ t : dict json, dict_lookup t "description") <$> (entry_of <$> entries)
  = (λ c, Some (description_of c)) <$> values entries.
Proof.
  induction entries as [|[k cfg] entries IH]; intros Hwf; [done|].
  simpl in Hwf. apply andb_prop in Hwf as [Hcfg Hrest].
  destruct cfg; try discriminate. simpl. f_equal. by apply IH.
Qed.

(** C6.  For a well-formed descriptor set of [N] servers,
    [get_available_tools] returns [N] entries; their names are the
    configuration keys, in the order of the configuration, and each
    carries the description of its server. *)
Theorem get_available_tools_lists_servers
  (self : MCPIntegration) (entries : dict json) :
  servers self = JObj entries →
  well_formed (servers self) = true →
  ∃ tools,
    MCPIntegration.get_available_tools self = Return tools
    ∧ length tools = length entries
    ∧ (λ t : dict json, dict_lookup t "name") <$> tools
      = (λ k, Some (JStr k)) <$> keys entries
    ∧ (λ t : dict json, dict_lookup t "description") <$> tools
      = (λ c, Some (description_of c)) <$> values entries.
Proof.
  intros Hs Hwf. rewrite Hs in Hwf. simpl in Hwf.
  exists (entry_of <$> entries). unfold MCPIntegration.get_available_tools. rewrite Hs. simpl.
  rewrite get_available_tools_loop_spec by done. simpl.
  split; [done|]. split; [by rewrite length_fmap|].
  split; [by apply entry_of_name | by apply entry_of_description].
Qed.

Lemma get_available_tools_lists_servers_witness :
  ∃ tools,
    MCPIntegration.get_available_tools (mcp_integration system_fs_only)
    = Return tools
    ∧ length tools = length fs_only
    ∧ (λ t : dict json, dict_lookup t "name") <$> tools
      = (λ k, Some (JStr k)) <$> keys fs_only
    ∧ (λ t : dict json, dict_lookup t "description") <$> tools
      = (λ c, Some (description_of c)) <$> values fs_only.
Proof.
  apply (get_available_tools_lists_servers
           (mcp_integration system_fs_only) fs_only); reflexivity.
Defined.

End Registry.

(** ** Loading the configuration *)

Module Config.
Import Py MCPIntegration MultiAgentSystem SystemNotions Cases.

Lemma init_returns_sized found path mcp :
  MCPIntegration.init found path = Return mcp →
  ∃ n, len (servers mcp) = Return n.
Proof.
  unfold MCPIntegration.init, load_config.
  destruct found as [|msg|config]; simpl.
  - intros [= <-]. by exists 0.
  - discriminate.
  - destruct config; simpl; try discriminate.
    destruct (len _) as [n|e] eqn:Hlen; simpl; [|discriminate].
    intros [= <-]. by exists n.
Qed.

Lemma create_tool_functions_returns mcp n :
  len (servers mcp) = Return n →
  is_returned (create_tool_functions mcp) = true.
Proof.
  unfold create_tool_functions.
  destruct (servers mcp); simpl; try discriminate; intros _.
  - by destruct (contains "fs" s), (contains "github" s).
  - by destruct (existsb (is_str "fs") l), (existsb (is_str "github") l).
  - by destruct (dict_mem "fs" o), (dict_mem "github" o).
Qed.

(** C2, as the code has it.  An absent descriptor is not an error: the
    loader returns the empty mapping and the system starts.  A text
    that is not JSON raises the parser's error, a document whose top
    level is not a mapping raises [AttributeError], and a [servers]
    entry without a length raises [TypeError]; in each of these cases
    the system is not built.  Any other document yields its [servers]
    entry, or the empty mapping when it has none, and the system
    starts whenever an API key is found. *)
Theorem load_config_outcomes (found : resource) (path : string) :
  match found with
  | Missing =>
      MCPIntegration.init found path
      = Return {| config_path := path; servers := JObj [] |}
  | Unparsable msg =>
      MCPIntegration.init found path = Raise (JSONDecodeError msg)
  | Document (JObj o) =>
      match servers_of o with
      | JObj _ | JArr _ | JStr _ =>
          MCPIntegration.init found path
          = Return {| config_path := path; servers := servers_of o |}
      | _ => ∃ msg, MCPIntegration.init found path = Raise (TypeError msg)
      end
  | Document _ =>
      ∃ msg, MCPIntegration.init found path = Raise (AttributeError msg)
  end
  ∧ (∀ env key e,
       mcp_servers_json env = found →
       MCPIntegration.init found "mcp_servers.json" = Raise e →
       is_returned (MultiAgentSystem.init env key) = false)
  ∧ (∀ env key mcp,
       mcp_servers_json env = found →
       MCPIntegration.init found "mcp_servers.json" = Return mcp →
       is_returned
         (new_GroqModelClient (GROQ_API_KEY env) key "llama3-8b-8192") = true →
       is_returned (MultiAgentSystem.init env key) = true).
Proof.
  split; [|split].
  - destruct found as [|msg|config]; try reflexivity.
    destruct config; simpl; eauto.
    unfold MCPIntegration.init, load_config, get. simpl. fold (servers_of o).
    destruct (servers_of o); simpl; eauto.
  - intros env key e Henv Hinit. unfold MultiAgentSystem.init.
    rewrite Henv, Hinit.
    by destruct (new_GroqModelClient _ _ _).
  - intros env key mcp Henv Hinit Hkey. unfold MultiAgentSystem.init.
    rewrite Henv, Hinit.
    destruct (new_GroqModelClient _ _ _) as [g|]; [simpl|discriminate].
    destruct (init_returns_sized _ _ _ Hinit) as [n Hn].
    pose proof (create_tool_functions_returns _ _ Hn) as Hfn.
    by destruct (create_tool_functions mcp).
Qed.

Lemma load_config_outcomes_witness :
  is_returned
    (MultiAgentSystem.init
       {| GROQ_API_KEY := Some "gsk_key";
          mcp_servers_json := Unparsable "Expecting value" |} None) = false
  ∧ is_returned (MultiAgentSystem.init env_fs_only None) = true.
Proof.
  split.
  - apply (load_config_outcomes (Unparsable "Expecting value")
             "mcp_servers.json")
      with (e := JSONDecodeError "Expecting value"); reflexivity.
  - apply (load_config_outcomes (descriptor fs_only) "mcp_servers.json")
      with (mcp := mcp_integration system_fs_only); reflexivity.
Defined.

(** C2 fails as stated: with no descriptor file the loader does not
    fail, and the system is built, with no servers and no tools. *)
Lemma missing_descriptor_is_accepted :
  MCPIntegration.init Missing "mcp_servers.json"
  = Return {| config_path := "mcp_servers.json"; servers := JObj [] |}
  ∧ MultiAgentSystem.init env_without_descriptor None
    = Return system_without_descriptor.
Proof. split; reflexivity. Qed.

End Config.

(** ** Agents *)

Module Agents.
Import Py MCPIntegration MultiAgentSystem SystemNotions Cases.

Lemma create_tool_functions_names mcp functions :
  create_tool_functions mcp = Return functions →
  keys functions = tool_name <$> values functions.
Proof.
  unfold create_tool_functions.
  destruct (has "fs" (servers mcp)) as [[]|]; simpl; [| |discriminate];
    (destruct (has "github" (servers mcp)) as [[]|]; simpl; [| |discriminate]);
    intros [= <-]; reflexivity.
Qed.

Lemma init_tool_names env key self :
  MultiAgentSystem.init env key = Return self →
  keys (tool_functions self) = tool_name <$> values (tool_functions self).
Proof.
  unfold MultiAgentSystem.init.
  destruct (new_GroqModelClient _ _ _) as [g|]; simpl; [|discriminate].
  destruct (MCPIntegration.init _ _) as [mcp|]; simpl; [|discriminate].
  destruct (create_tool_functions mcp) as [functions|] eqn:Hfn; simpl;
    [|discriminate].
  intros [= <-]. simpl. by eapply create_tool_functions_names.
Qed.

(** C7, as the code has it.  [create_agent] is given no tool names and
    resolves none: for every system and every configuration it returns
    an agent, named as asked and bound to whatever the registry
    built. *)
Theorem create_agent_never_fails
  (self : MultiAgentSystem) (config : AgentConfig) :
  ∃ agent,
    create_agent self config = Return agent
    ∧ agent_name agent = name config
    ∧ tools agent = values (tool_functions self).
Proof. eexists. split; [reflexivity|]. by split. Qed.

(** C7 fails as stated: the registry built nothing, the request names
    [github_search], and the agent is created all the same, with a
    prompt that offers [github_search]. *)
Lemma create_agent_with_unbuilt_tool :
  dict_lookup (tool_functions system_without_descriptor) "github_search" = None
  ∧ contains "github_search" (system_message scout) = true
  ∧ create_agent system_without_descriptor scout = Return scout_without_tools
  ∧ tools scout_without_tools = []
  ∧ contains "github_search(query)" (agent_system_message scout_without_tools)
    = true.
Proof. repeat split; vm_compute; reflexivity. Qed.

(** C8, as the code has it.  The prompt of an agent of a started system
    is the literal of [create_agent] filled with the base prompt and
    with the names of the bound tools, in the order in which they are
    bound; the six usage hints and the closing instruction are fixed
    text, the same whatever was bound. *)
Theorem create_agent_prompt
  (env : environment) (key : option string)
  (self : MultiAgentSystem) (config : AgentConfig) (agent : AssistantAgent) :
  MultiAgentSystem.init env key = Return self →
  create_agent self config = Return agent →
  agent_system_message agent
  = unlines
      ([ "";
         "        " +:+ system_message config;
         "        ";
         "        Available tools: " +:+ join ", " (tool_name <$> tools agent);
         "        ";
         "        You can use these tools to accomplish tasks:" ]
       ++ usage_hints ++
       [ "        ";
         "        Always collaborate effectively with other agents and provide clear, actionable responses.";
         "        " ]).
Proof.
  intros Hinit [= <-]. simpl.
  rewrite (init_tool_names _ _ _ Hinit). reflexivity.
Qed.

Lemma create_agent_prompt_witness :
  agent_system_message scout_with_file_tools
  = enhanced_system_message (system_message scout)
      (tool_name <$> tools scout_with_file_tools).
Proof.
  apply (create_agent_prompt env_fs_only None system_fs_only scout);
    reflexivity.
Defined.

(** C8 fails as stated: with the file tools only, the prompt still
    gives the usage hint of [github_search], which is not bound. *)
Lemma prompt_hints_unbound_tool :
  MultiAgentSystem.init env_fs_only None = Return system_fs_only
  ∧ create_agent system_fs_only scout = Return scout_with_file_tools
  ∧ (github_search ∉ tools scout_with_file_tools)
  ∧ contains "- github_search(query): Search GitHub repositories"
      (agent_system_message scout_with_file_tools) = true.
Proof.
  split; [reflexivity|]. split; [reflexivity|].
  split; [|vm_compute; reflexivity].
  simpl. rewrite !elem_of_cons, elem_of_nil. naive_solver.
Qed.

(** C10.  Every agent is bound to all the tool functions of the
    system: [create_agent] binds them whatever the configuration says,
    and both presets leave the tool functions as they were, so the
    eight agents of the two teams are bound to the same tools. *)
Theorem agents_share_all_tools (self : MultiAgentSystem) :
  (∀ config, ∃ agent,
      create_agent self config = Return agent ∧ bound_to_all self agent)
  ∧ ∃ self1 research self2 development,
      setup_research_team self = Return (self1, research)
      ∧ setup_development_team self1 = Return (self2, development)
      ∧ tool_functions self1 = tool_functions self
      ∧ tool_functions self2 = tool_functions self
      ∧ length (participants research) = 4
      ∧ length (participants development) = 4
      ∧ Forall (bound_to_all self)
          (participants research ++ participants development).
Proof.
  split.
  - intros config. eexists. split; reflexivity.
  - do 4 eexists. split; [reflexivity|]. split; [reflexivity|].
    split; [reflexivity|]. split; [reflexivity|].
    split; [reflexivity|]. split; [reflexivity|].
    repeat constructor.
Qed.

End Agents.

(** ** Turn order *)

Module RoundRobin.
Import Py MultiAgentSystem Orchestrator SystemNotions Cases.

Section Order.

Variable produce : AssistantAgent → list Message → option string.
Variable cancel : nat → bool.
Variable team : RoundRobinGroupChat.

Lemma in_order_snoc l agent text :
  in_order team l →
  active team (length l) = Some agent →
  in_order team (l ++ [{| speaker := agent_name agent;
                     content := text;
                     sequenceNumber := length l |}]).
Proof.
  intros Hl Hactive i m Hi.
  destruct (decide (i < length l)) as [Hlt|Hge].
  - rewrite lookup_app_l in Hi by done. by apply Hl.
  - rewrite lookup_app_r in Hi by lia.
    destruct (i - length l) as [|k] eqn:Hk; simpl in Hi; [|done].
    injection Hi as <-. assert (i = length l) as -> by lia.
    exists agent. by simpl.
Qed.

Lemma start_consistent : consistent team start.
Proof. split; [done|]. intros i m Hi. done. Qed.

Lemma turn_consistent st : consistent team st → consistent team (turn produce cancel team st).
Proof.
  intros [Hturn Hlog]. unfold Orchestrator.turn.
  destruct (phase st) eqn:Hphase; try (split; [by rewrite ?Hphase|done]).
  specialize (Hturn eq_refl).
  destruct (cancel (turnNumber st)); [by split|].
  destruct (participants team !! _) as [agent|] eqn:Hagent; [|by split].
  destruct (produce agent (log st)) as [text|]; [|by split].
  assert (in_order team (log st ++ [{| speaker := agent_name agent;
                                  content := text;
                                  sequenceNumber := length (log st) |}])).
  { apply in_order_snoc; [done|]. unfold active. by rewrite <- Hturn. }
  destruct (_ <=? _)%nat; split; simpl; try done.
  intros _. rewrite length_app. simpl. lia.
Qed.

Lemma run_consistent n st : consistent team st → consistent team (run produce cancel team n st).
Proof.
  revert st. induction n as [|n IH]; intros st Hst; [done|].
  simpl. apply IH. by apply turn_consistent.
Qed.

Lemma run_S n st :
  run produce cancel team (S n) st
  = turn produce cancel team (run produce cancel team n st).
Proof.
  revert st. induction n as [|n IH]; intros st; [done|].
  change (run produce cancel team (S (S n)) st)
    with (run produce cancel team (S n) (turn produce cancel team st)).
  rewrite IH. done.
Qed.

(** While the loop is running, it has made one message per turn and
    has not reached the bound. *)
Lemma run_running n :
  phase (run produce cancel team n start) = Running →
  length (log (run produce cancel team n start)) = n
  ∧ (n = 0 ∨ n < max_messages team).
Proof.
  induction n as [|n IH]; [by auto|].
  rewrite run_S. unfold Orchestrator.turn.
  destruct (phase (run produce cancel team n start)) eqn:Hphase; try (rewrite Hphase; done).
  destruct (IH eq_refl) as [Hlen _].
  destruct (cancel _); [done|].
  destruct (participants team !! _) as [agent|]; [|done].
  destruct (produce agent _) as [text|]; [|done].
  destruct (_ <=? _)%nat eqn:Hmax; [done|]. simpl. intros _.
  apply Nat.leb_gt in Hmax. rewrite length_app in *. simpl in *. lia.
Qed.

(** A session comes to an end within [max_messages] turns. *)
Lemma session_ends :
  0 < max_messages team →
  phase (session produce cancel team) ≠ Running.
Proof.
  intros Hmax Hrun. apply run_running in Hrun. lia.
Qed.

End Order.

(** C9.  In the log of a run of any number of turns, message [i] was
    produced by [participants[i mod A]]. *)
Theorem round_robin_order
  (produce : AssistantAgent → list Message → option string)
  (cancel : nat → bool) (team : RoundRobinGroupChat) (n i : nat) :
  i < length (log (run produce cancel team n start)) →
  ∃ message agent,
    log (run produce cancel team n start) !! i = Some message
    ∧ participants team !! (i mod length (participants team)) = Some agent
    ∧ speaker message = agent_name agent.
Proof.
  intros Hi. apply lookup_lt_is_Some_2 in Hi as [message Hm].
  destruct (run_consistent produce cancel team n start) as [_ Hlog];
    [apply start_consistent|].
  destruct (Hlog i message Hm) as (agent & Hagent & Hspeaker & _).
  by exists message, agent.
Qed.

Lemma round_robin_order_witness :
  5 < length (log (run says_name never research_team 6 start))
  ∧ ∃ message agent,
      log (run says_name never research_team 6 start) !! 5 = Some message
      ∧ participants research_team !! (5 mod length (participants research_team))
        = Some agent
      ∧ speaker message = agent_name agent.
Proof.
  assert (H : 5 < length (log (run says_name never research_team 6 start)))
    by (vm_compute; lia).
  split; [exact H|].
  exact (round_robin_order says_name never research_team 6 5 H).
Defined.

(** The participants of the two presets, in the order of their
    descriptors. *)
Lemma research_team_order self :
  ∃ self' team,
    setup_research_team self = Return (self', team)
    ∧ agent_name <$> participants team
      = ["Researcher"; "Analyst"; "TechnicalExpert"; "Coordinator"]
    ∧ max_messages team = 20.
Proof. do 2 eexists. split; [reflexivity|]. by split. Qed.

Lemma development_team_order self :
  ∃ self' team,
    setup_development_team self = Return (self', team)
    ∧ agent_name <$> participants team
      = ["Developer"; "Architect"; "Tester"; "DevOps"]
    ∧ max_messages team = 25.
Proof. do 2 eexists. split; [reflexivity|]. by split. Qed.

End RoundRobin.

(** ** The file tools *)

Module FileTools.
Import Py Text Fs Tools FileNotions Cases.

(** *** The tools over any system *)

Section Boundary.

Context {M : Messages} {W : Type} {P : Pathlib W}.

(** The soft-fail wrapper: whatever the body does, the call returns. *)
Lemma soft_fail {A} (m : io W A) (describe : exn → A) w :
  ∃ a w', try_except m (λ e, ret (describe e)) w = (Return a, w').
Proof.
  unfold try_except. destruct (m w) as [[a|e] w']; simpl; eauto.
Qed.


(** What [write_file] did when it reports success, and what it
    answers when it does not. *)
Lemma write_file_success path content w w' :
  write_file path content w = (Return (success path), w') →
  let target := truediv workspace (Path path) in
  ∃ w1 n,
    p_mkdir (parent target) true true w = (Return tt, w1)
    ∧ p_write_text target content w1 = (Return n, w').
Proof.
  intros Hw target. unfold write_file, try_except, bind in Hw.
  fold target in Hw.
  destruct (p_mkdir (parent target) true true w) as [[[]|e] w1].
  - destruct (p_write_text target content w1) as [[n|e] w2] eqn:Hwt.
    + unfold ret in Hw. assert (w2 = w') as <- by congruence.
      by exists w1, n.
    + simpl in Hw. discriminate.
  - simpl in Hw. discriminate.
Qed.

End Boundary.

(** *** The calls of [pathlib] on the file system *)

(** The calls of the interface are those of the model. *)
Ltac on_posix :=
  cbn [p_exists p_is_dir p_read_text p_write_text p_mkdir p_iterdir posix]
    in *.

Lemma locate_from_error fs d cs k :
  locate_from fs d cs = inl k → k = ENOENT ∨ k = ENOTDIR.
Proof.
  revert d. induction cs as [|c cs IH]; intros d; [done|].
  destruct cs as [|c' cs]; [done|].
  change (locate_from fs d (c :: c' :: cs))
    with (match kind fs (enter d c) with
          | Some Dir => locate_from fs (enter d c) (c' :: cs)
          | Some _ => inl ENOTDIR
          | None => inl ENOENT
          end).
  destruct (kind fs (enter d c)) as [[data| |]|];
    [naive_solver|apply IH|naive_solver|naive_solver].
Qed.

Lemma stat_found p fs :
  has_nul p = false →
  stat p fs = (match found fs p with
               | Some n => Return n
               | None =>
                   Raise (OSError (match locate fs p with
                                   | inl k => k
                                   | inr _ => ENOENT
                                   end) (str_path p))
               end, fs).
Proof.
  intros Hnul. unfold stat, found. rewrite Hnul.
  destruct (locate fs p) as [k|t]; [done|]. by destruct (kind fs t).
Qed.

Lemma path_exists_found p fs :
  path_exists p fs
  = (Return (negb (has_nul p) && bool_decide (is_Some (found fs p))), fs).
Proof.
  unfold path_exists, try_except, bind.
  destruct (has_nul p) eqn:Hnul.
  - unfold stat. by rewrite Hnul.
  - rewrite stat_found by done. unfold found.
    destruct (locate fs p) as [k|t] eqn:Hloc.
    + apply locate_from_error in Hloc as [-> | ->]; done.
    + by destruct (kind fs t).
Qed.

Lemma is_dir_found p fs :
  is_dir p fs
  = (Return (negb (has_nul p) && bool_decide (found fs p = Some Dir)), fs).
Proof.
  unfold is_dir, try_except, bind.
  destruct (has_nul p) eqn:Hnul.
  - unfold stat. by rewrite Hnul.
  - rewrite stat_found by done. unfold found.
    destruct (locate fs p) as [k|t] eqn:Hloc.
    + apply locate_from_error in Hloc as [-> | ->]; done.
    + by destruct (kind fs t) as [[data| |]|].
Qed.

(** *** Places and what is put there *)

Lemma kind_put t0 n fs t :
  t0 ≠ [] →
  kind (put t0 n fs) t = if decide (t = t0) then Some n else kind fs t.
Proof.
  intros Ht0. unfold kind, put. simpl.
  destruct t as [|c t]; [by case_decide|].
  rewrite lookup_insert. by repeat case_decide.
Qed.

Lemma kind_put_ne t0 n fs t : t ≠ t0 → kind (put t0 n fs) t = kind fs t.
Proof.
  intros Hne. unfold kind, put. simpl.
  destruct t as [|c t]; [done|]. by rewrite lookup_insert_ne.
Qed.

Lemma kind_root_free fs t : kind fs t ≠ Some Dir → t ≠ [].
Proof. by intros Hk ->. Qed.

Lemma kind_nonempty fs t : t ≠ [] → kind fs t = nodes fs !! t.
Proof. by destruct t. Qed.

(** A file put where no directory was keeps the directories. *)
Lemma keeps_directories_put_file fs t data :
  kind fs t ≠ Some Dir → keeps_directories fs (put t (File data) fs).
Proof.
  intros Hk t' Ht'. rewrite kind_put_ne; [done|]. intros ->. congruence.
Qed.

Lemma keeps_directories_put_dir fs t :
  kind fs t = None → keeps_directories fs (put t Dir fs).
Proof.
  intros Hk t' Ht'. rewrite kind_put_ne; [done|]. intros ->. congruence.
Qed.

Lemma locate_from_cons fs d c cs :
  cs ≠ [] →
  locate_from fs d (c :: cs)
  = match kind fs (enter d c) with
    | Some Dir => locate_from fs (enter d c) cs
    | Some _ => inl ENOTDIR
    | None => inl ENOENT
    end.
Proof. by destruct cs. Qed.

Lemma locate_from_snoc fs d cs c :
  locate_from fs d (cs ++ [c])
  = match descend fs d cs with
    | inr t => inr (enter t c)
    | inl k => inl k
    end.
Proof.
  revert d. induction cs as [|c0 cs IH]; intros d; [done|].
  change ((c0 :: cs) ++ [c]) with (c0 :: (cs ++ [c])).
  rewrite locate_from_cons by (by destruct cs). cbn [descend].
  destruct (kind fs (enter d c0)) as [[data| |]|]; [done| |done|done].
  apply IH.
Qed.

Lemma descend_snoc fs d cs c :
  descend fs d (cs ++ [c])
  = match descend fs d cs with
    | inr t =>
        match kind fs (enter t c) with
        | Some Dir => inr (enter t c)
        | Some _ => inl ENOTDIR
        | None => inl ENOENT
        end
    | inl k => inl k
    end.
Proof.
  revert d. induction cs as [|c0 cs IH]; intros d; cbn [descend app].
  - by destruct (kind fs (enter d c)) as [[data| |]|].
  - destruct (kind fs (enter d c0)) as [[data| |]|];
      [done|apply IH|done|done].
Qed.

Lemma descend_mono fs fs' d cs t :
  keeps_directories fs fs' →
  descend fs d cs = inr t → descend fs' d cs = inr t.
Proof.
  intros Hmono. revert d. induction cs as [|c cs IH]; intros d; [done|].
  cbn [descend].
  destruct (kind fs (enter d c)) as [[data| |]|] eqn:Hk; [done| |done|done].
  rewrite (Hmono _ Hk). apply IH.
Qed.

Lemma locate_from_mono fs fs' d cs t :
  keeps_directories fs fs' →
  locate_from fs d cs = inr t → locate_from fs' d cs = inr t.
Proof.
  intros Hmono. destruct cs as [|c cs _] using rev_ind; [done|].
  rewrite !locate_from_snoc.
  destruct (descend fs d cs) as [k|t'] eqn:Hd; [done|].
  by rewrite (descend_mono _ _ _ _ _ Hmono Hd).
Qed.

(** The way to a place, and what is found at a directory, are kept
    where directories are kept and the working directory is the
    same. *)
Lemma locate_mono fs fs' p t :
  cwd fs' = cwd fs → keeps_directories fs fs' →
  locate fs p = inr t → locate fs' p = inr t.
Proof.
  intros Hcwd Hmono. unfold locate, origin. rewrite Hcwd.
  by apply locate_from_mono.
Qed.

Lemma found_dir_mono fs fs' p :
  cwd fs' = cwd fs → keeps_directories fs fs' →
  found fs p = Some Dir → found fs' p = Some Dir.
Proof.
  intros Hcwd Hmono. unfold found.
  destruct (locate fs p) as [k|t] eqn:Hloc; [done|].
  rewrite (locate_mono _ _ _ _ Hcwd Hmono Hloc). apply Hmono.
Qed.

Lemma descend_locate fs d cs t :
  cs ≠ [] → descend fs d cs = inr t →
  locate_from fs d cs = inr t ∧ kind fs t = Some Dir.
Proof.
  destruct cs as [|c cs _] using rev_ind; [done|]. intros _.
  rewrite descend_snoc, locate_from_snoc.
  destruct (descend fs d cs) as [k|t']; [done|].
  destruct (kind fs (enter t' c)) as [[data| |]|] eqn:Hk; [done| |done|done].
  by intros [= <-].
Qed.

Lemma locate_descend fs d cs t :
  locate_from fs d cs = inr t → kind fs t = Some Dir →
  descend fs d cs = inr t.
Proof.
  destruct cs as [|c cs _] using rev_ind; [done|].
  rewrite descend_snoc, locate_from_snoc.
  destruct (descend fs d cs) as [k|t']; [done|].
  intros [= <-] Hk. by rewrite Hk.
Qed.

(** *** What the calls do when they return *)

Lemma write_text_returns p data fs n fs' :
  write_text p data fs = (Return n, fs') →
  has_nul p = false
  ∧ valid_utf8 data = true
  ∧ ∃ t, locate fs p = inr t
         ∧ ((kind fs t = Some Null ∧ fs' = fs)
            ∨ (kind fs t ≠ Some Dir ∧ kind fs t ≠ Some Null
               ∧ fs' = put t (File data) fs)).
Proof.
  unfold write_text. destruct (has_nul p); [done|].
  destruct (locate fs p) as [k|t]; [done|].
  destruct (kind fs t) as [[data'| |]|] eqn:Hk; [|done| |];
    (destruct (valid_utf8 data); [|done]); intros [= _ <-];
    (split; [done|]); (split; [done|]); exists t; (split; [done|]);
    rewrite Hk; [right|left|right]; done.
Qed.

Lemma write_text_succeeds p data fs t :
  has_nul p = false →
  locate fs p = inr t →
  kind fs t ≠ Some Dir →
  valid_utf8 data = true →
  ∃ n fs',
    write_text p data fs = (Return n, fs') ∧ keeps_directories fs fs'.
Proof.
  intros Hnul Hloc Hk Hvalid. unfold write_text.
  rewrite Hnul, Hloc, Hvalid.
  destruct (kind fs t) as [[data'| |]|] eqn:Hkind; [|done| |];
    eexists _, _; (split; [done|]);
    try (apply keeps_directories_put_file; by rewrite Hkind).
  by intros t' Ht'.
Qed.

(** The file just written is found where the path leads. *)
Lemma found_written fs p t data :
  locate fs p = inr t → kind fs t ≠ Some Dir →
  locate (put t (File data) fs) p = inr t
  ∧ found (put t (File data) fs) p = Some (File data).
Proof.
  intros Hloc Hk.
  assert (Hl : locate (put t (File data) fs) p = inr t).
  { apply (locate_mono fs); [done| |done].
    by apply keeps_directories_put_file. }
  split; [done|]. unfold found. rewrite Hl.
  rewrite kind_put by (by eapply kind_root_free). by case_decide.
Qed.

Lemma os_mkdir_returns p fs fs1 :
  os_mkdir p fs = (Return tt, fs1) →
  has_nul p = false ∧ found fs1 p = Some Dir.
Proof.
  unfold os_mkdir. destruct (has_nul p); [done|].
  destruct (locate fs p) as [k|t] eqn:Hloc; [done|].
  destruct (kind fs t) eqn:Hk; [done|]. intros [= <-]. split; [done|].
  assert (Ht : t ≠ []) by (intros ->; done).
  unfold found.
  rewrite (locate_mono fs _ _ t);
    [|done|by apply keeps_directories_put_dir|done].
  rewrite kind_put by done. by case_decide.
Qed.

Lemma already_there_returns p e fs fs1 :
  already_there p true e fs = (Return tt, fs1) →
  fs1 = fs ∧ has_nul p = false ∧ found fs p = Some Dir.
Proof.
  unfold already_there, bind. rewrite is_dir_found.
  destruct (has_nul p); [done|]. simpl.
  case_bool_decide; [|done]. by intros [= <-].
Qed.

Lemma mkdir_once_returns p fs fs1 :
  mkdir_once p true fs = (Return tt, fs1) →
  has_nul p = false ∧ found fs1 p = Some Dir.
Proof.
  unfold mkdir_once, try_except.
  destruct (os_mkdir p fs) as [[[]|e] fs0] eqn:Hos.
  - intros [= <-]. by eapply os_mkdir_returns.
  - destruct e as [[] f| | | | | | |]; try done;
      intros (-> & Hnul & Hf)%already_there_returns; done.
Qed.

Lemma mkdir_parents_unfold a rparts exist_ok :
  mkdir_parents a rparts exist_ok
  = try_except (os_mkdir {| anchor := a; parts := reverse rparts |})
      (λ e,
         match e with
         | OSError ENOENT _ =>
             match rparts with
             | [] => raise e
             | _ :: rparent =>
                 mkdir_parents a rparent true ;;;
                 mkdir_once {| anchor := a; parts := reverse rparts |}
                   exist_ok
             end
         | OSError _ _ =>
             already_there {| anchor := a; parts := reverse rparts |}
               exist_ok e
         | _ => raise e
         end).
Proof. by destruct rparts. Qed.

Lemma mkdir_self p :
  {| anchor := anchor p; parts := reverse (reverse (parts p)) |} = p.
Proof. rewrite reverse_involutive. by destruct p. Qed.

(** When [mkdir] returns, the directory is there. *)
Lemma mkdir_returns p fs fs1 :
  mkdir p true true fs = (Return tt, fs1) →
  has_nul p = false ∧ found fs1 p = Some Dir.
Proof.
  unfold mkdir. rewrite mkdir_parents_unfold, mkdir_self.
  unfold try_except.
  destruct (os_mkdir p fs) as [[[]|e] fs0] eqn:Hos.
  - intros [= <-]. by eapply os_mkdir_returns.
  - destruct e as [[] f| | | | | | |]; try done;
      try (intros (-> & Hnul & Hf)%already_there_returns; done).
    destruct (reverse (parts p)) as [|c rparent]; [done|]. unfold bind.
    destruct (mkdir_parents (anchor p) rparent true fs0) as [[[]|e] fs2];
      [|done].
    apply mkdir_once_returns.
Qed.

(** A directory that is there is left alone. *)
Lemma mkdir_existing p fs :
  has_nul p = false → found fs p = Some Dir →
  mkdir p true true fs = (Return tt, fs).
Proof.
  intros Hnul Hfound. unfold mkdir.
  rewrite mkdir_parents_unfold, mkdir_self. unfold try_except, os_mkdir.
  rewrite Hnul. pose proof Hfound as Hf. unfold found in Hf.
  destruct (locate fs p) as [k|t] eqn:Hloc; [done|]. rewrite Hf.
  unfold already_there, bind. rewrite is_dir_found, Hnul, Hfound.
  by rewrite bool_decide_true.
Qed.

(** *** What the calls do to the file system *)

Lemma stat_effect p fs : (stat p fs).2 = fs.
Proof.
  unfold stat. destruct (has_nul p); [done|].
  destruct (locate fs p) as [k|t]; [done|]. by destruct (kind fs t).
Qed.

Lemma read_text_effect p fs : (read_text p fs).2 = fs.
Proof.
  unfold read_text, bind. pose proof (stat_effect p fs) as Hs.
  destruct (stat p fs) as [[[data| |]|e] fs1]; simpl in *; subst;
    [|done|done|done].
  by destruct (valid_utf8 data).
Qed.

Lemma os_mkdir_effect p fs :
  (os_mkdir p fs).2 = fs
  ∨ ∃ t, locate fs p = inr t
         ∧ kind fs t = None
         ∧ os_mkdir p fs = (Return tt, put t Dir fs).
Proof.
  unfold os_mkdir. destruct (has_nul p); [by left|].
  destruct (locate fs p) as [k|t]; [by left|].
  destruct (kind fs t) eqn:Hk; [by left|]. right. by exists t.
Qed.

Lemma already_there_effect p exist_ok e fs :
  (already_there p exist_ok e fs).2 = fs.
Proof.
  unfold already_there, bind. destruct exist_ok.
  - rewrite is_dir_found. by destruct (_ && _).
  - done.
Qed.

Lemma mkdir_once_effect p exist_ok fs :
  (mkdir_once p exist_ok fs).2 = (os_mkdir p fs).2.
Proof.
  unfold mkdir_once, try_except.
  destruct (os_mkdir_effect p fs) as [Hsame | (t & _ & _ & ->)]; [|done].
  destruct (os_mkdir p fs) as [[u|e] fs1]; [done|]. simpl in *. subst fs1.
  destruct e as [[] f| | | | | | |]; try done; apply already_there_effect.
Qed.

Lemma extends_refl fs : extends fs fs.
Proof. by split. Qed.

Lemma extends_trans fs1 fs2 fs3 :
  extends fs1 fs2 → extends fs2 fs3 → extends fs1 fs3.
Proof. intros [Hc1 H1] [Hc2 H2]. split; [congruence|]. auto. Qed.

Lemma extends_keeps_directories fs fs' :
  extends fs fs' → keeps_directories fs fs'.
Proof.
  intros [_ Hkeep] t. destruct t as [|c t]; [done|]. apply Hkeep.
Qed.

Lemma os_mkdir_extends p fs : extends fs (os_mkdir p fs).2.
Proof.
  destruct (os_mkdir_effect p fs) as [-> | (t & _ & Hnone & ->)];
    [apply extends_refl|].
  split; [done|]. intros t' n Hn. simpl.
  rewrite lookup_insert_ne; [done|]. intros ->.
  destruct t' as [|c t']; [done|]. simpl in Hnone. congruence.
Qed.

Lemma mkdir_parents_extends a rparts exist_ok fs :
  extends fs (mkdir_parents a rparts exist_ok fs).2.
Proof.
  revert exist_ok fs.
  induction rparts as [|c rparent IH]; intros exist_ok fs;
    rewrite mkdir_parents_unfold; unfold try_except;
    match goal with
    | |- context [os_mkdir ?p fs] =>
        pose proof (os_mkdir_extends p fs) as Hfirst
    end;
    destruct (os_mkdir _ fs) as [[u|e] fs1]; simpl in Hfirst; try done;
    (destruct e as [[] f| | | | | | |]; try done;
     try (rewrite already_there_effect; done)).
  unfold bind. pose proof (IH true fs1) as Hparent.
  destruct (mkdir_parents a rparent true fs1) as [[u|e] fs2];
    simpl in Hparent; [|by eapply extends_trans].
  eapply extends_trans; [exact Hfirst|].
  eapply extends_trans; [exact Hparent|].
  rewrite mkdir_once_effect. apply os_mkdir_extends.
Qed.

Lemma mkdir_extends p fs : extends fs (mkdir p true true fs).2.
Proof. apply mkdir_parents_extends. Qed.

(** Where the path leads to a directory, nothing is written. *)
Lemma write_text_on_directory p data fs :
  found fs p = Some Dir →
  ∃ e, write_text p data fs = (Raise e, fs).
Proof.
  intros Hf. unfold write_text. destruct (has_nul p); [by eexists|].
  unfold found in Hf. destruct (locate fs p) as [k|t]; [done|].
  rewrite Hf. by eexists.
Qed.

(** *** Paths made of names only *)

Lemma stays_inside_plain p :
  stays_inside p = true → anchor p = Relative ∧ plain (parts p).
Proof.
  unfold stays_inside, plain, absolute. intros [Habs Hall]%andb_prop.
  split; [by destruct (anchor p)|].
  apply Forall_forall. intros c Hc%list_elem_of_In.
  rewrite forallb_forall in Hall. specialize (Hall c Hc).
  intros ->. done.
Qed.

Lemma enter_plain d c : c ≠ ".." → enter d c = d ++ [c].
Proof.
  intros Hc. unfold enter.
  destruct (String.eqb_spec c ".."); [done|done].
Qed.

Lemma descend_plain fs d cs t :
  plain cs → descend fs d cs = inr t → t = d ++ cs.
Proof.
  intros Hcs. revert d. induction Hcs as [|c cs Hc Hcs IH]; intros d.
  - intros [= <-]. by rewrite app_nil_r.
  - cbn [descend]. rewrite enter_plain by done.
    destruct (kind fs (d ++ [c])) as [[data| |]|]; [done| |done|done].
    intros Ht%IH. by rewrite <- app_assoc in Ht.
Qed.

Lemma plain_removelast cs : plain cs → plain (removelast cs).
Proof.
  destruct cs as [|c cs _] using rev_ind; [done|].
  rewrite removelast_last. by intros [H _]%Forall_app.
Qed.

Lemma workspace_join p :
  anchor p = Relative →
  truediv workspace p
  = {| anchor := Relative; parts := "workspace" :: parts p |}.
Proof. intros Hrel. unfold truediv, absolute. by rewrite Hrel. Qed.

Lemma existsb_snoc_false {A} (f : A → bool) l x :
  existsb f (l ++ [x]) = false → existsb f l = false.
Proof. rewrite existsb_app. by intros [H _]%orb_false_elim. Qed.

Lemma existsb_removelast {A} (f : A → bool) (l : list A) :
  existsb f l = false → existsb f (removelast l) = false.
Proof.
  destruct l as [|a l _] using rev_ind; [done|].
  rewrite removelast_last. apply existsb_snoc_false.
Qed.

Lemma has_nul_parent p : has_nul p = false → has_nul (parent p) = false.
Proof. apply existsb_removelast. Qed.

(** *** Making the directories on the way *)

Lemma passable_snoc fs d cs c :
  passable fs d (cs ++ [c]) = true →
  passable fs d cs = true
  ∧ (kind fs (d ++ cs ++ [c]) = Some Dir ∨ kind fs (d ++ cs ++ [c]) = None).
Proof.
  revert d. induction cs as [|c0 cs IH]; intros d; simpl.
  - destruct (kind fs (d ++ [c])) as [[data| |]|]; intros; by eauto.
  - destruct (kind fs (d ++ [c0])) as [[data| |]|]; [done| |done|];
      intros [Hp Hk]%IH; (split; [done|]); by rewrite <- app_assoc in Hk.
Qed.

Lemma descend_blocked fs d cs k :
  plain cs → passable fs d cs = true → descend fs d cs = inl k → k = ENOENT.
Proof.
  intros Hcs. revert d. induction Hcs as [|c cs Hc Hcs IH]; intros d; [done|].
  cbn [descend passable]. rewrite enter_plain by done.
  destruct (kind fs (d ++ [c])) as [[data| |]|];
    [done|apply IH|done|congruence].
Qed.

Lemma made_kind t fs fs' : made t fs fs' → kind fs' t = Some Dir.
Proof.
  intros [[Hk ->] | [Hk ->]]; [done|].
  rewrite kind_put; [by case_decide|]. intros ->. done.
Qed.

Lemma made_mono t fs fs' : made t fs fs' → keeps_directories fs fs'.
Proof.
  intros [[Hk ->] | [Hk ->]]; [by intros t' Ht'|].
  by apply keeps_directories_put_dir.
Qed.

Lemma made_change t fs fs' t' :
  made t fs fs' →
  kind fs' t' = kind fs t'
  ∨ (kind fs t' = None ∧ kind fs' t' = Some Dir ∧ t' = t).
Proof.
  intros Hmade. destruct (decide (t' = t)) as [->|Hne].
  - pose proof (made_kind _ _ _ Hmade) as Hk.
    destruct Hmade as [[Hk0 ->] | [Hk0 ->]]; [by left|by right].
  - left. destruct Hmade as [[_ ->] | [_ ->]]; [done|by apply kind_put_ne].
Qed.

Section MakeWay.

Variables (cs : list string) (c : string).

Hypothesis plain_way : plain (cs ++ [c]).
Hypothesis clean_way : existsb (mentions NUL) (cs ++ [c]) = false.

Lemma way_parts : plain cs ∧ c ≠ "..".
Proof.
  pose proof plain_way as Hway. apply Forall_app in Hway as [Hcs Hc].
  by rewrite Forall_singleton in Hc.
Qed.

Lemma self_is_dir fs :
  descend fs (cwd fs) cs = inr (cwd fs ++ cs) →
  kind fs (cwd fs ++ cs ++ [c]) = Some Dir →
  is_dir {| anchor := Relative; parts := cs ++ [c] |} fs = (Return true, fs).
Proof.
  intros Hway Hk. rewrite is_dir_found. unfold has_nul, found, locate, origin.
  cbn [absolute anchor parts]. rewrite clean_way, locate_from_snoc, Hway.
  destruct way_parts as [_ Hc].
  rewrite (enter_plain _ _ Hc), <- app_assoc, Hk. done.
Qed.

(** With the parent in place, one [mkdir] without [parents] does it. *)
Lemma mkdir_once_ready fs :
  descend fs (cwd fs) cs = inr (cwd fs ++ cs) →
  (kind fs (cwd fs ++ cs ++ [c]) = Some Dir
   ∨ kind fs (cwd fs ++ cs ++ [c]) = None) →
  ∃ fs',
    mkdir_once {| anchor := Relative; parts := cs ++ [c] |} true fs
    = (Return tt, fs')
    ∧ made (cwd fs ++ cs ++ [c]) fs fs'.
Proof.
  intros Hway Hfile. unfold mkdir_once, try_except.
  pose proof (self_is_dir fs Hway) as Hisdir.
  unfold os_mkdir, has_nul, locate, origin. cbn [absolute anchor parts].
  rewrite clean_way, locate_from_snoc, Hway.
  destruct way_parts as [_ Hc].
  rewrite (enter_plain _ _ Hc), <- app_assoc.
  destruct (kind fs (cwd fs ++ cs ++ [c])) as [[data| |]|] eqn:Hk.
  - by destruct Hfile.
  - exists fs. split; [|by left].
    unfold already_there, bind. by rewrite Hisdir.
  - by destruct Hfile.
  - eexists. split; [done|]. by right.
Qed.

(** The first attempt of [mkdir] with [parents]: it succeeds, or it
    finds the parent missing. *)
Lemma os_mkdir_first fs :
  passable fs (cwd fs) (cs ++ [c]) = true →
  (∃ fs',
     try_except (os_mkdir {| anchor := Relative; parts := cs ++ [c] |})
       (λ e, match e with
             | OSError ENOENT _ => raise e
             | OSError _ _ =>
                 already_there {| anchor := Relative; parts := cs ++ [c] |}
                   true e
             | _ => raise e
             end) fs = (Return tt, fs')
     ∧ descend fs (cwd fs) cs = inr (cwd fs ++ cs)
     ∧ made (cwd fs ++ cs ++ [c]) fs fs')
  ∨ (∃ f,
       os_mkdir {| anchor := Relative; parts := cs ++ [c] |} fs
       = (Raise (OSError ENOENT f), fs)
       ∧ ∃ k, descend fs (cwd fs) cs = inl k).
Proof.
  intros [Hpass Hfile]%passable_snoc.
  destruct way_parts as [Hcs _].
  destruct (descend fs (cwd fs) cs) as [k|t] eqn:Hway.
  - right. exists (str_path {| anchor := Relative; parts := cs ++ [c] |}).
    split; [|by eexists].
    pose proof (descend_blocked _ _ _ _ Hcs Hpass Hway) as ->.
    unfold os_mkdir, has_nul, locate, origin. cbn [absolute anchor parts].
    by rewrite clean_way, locate_from_snoc, Hway.
  - left. pose proof (descend_plain _ _ _ _ Hcs Hway) as ->.
    destruct (mkdir_once_ready fs Hway Hfile) as (fs' & Hmk & Hmade).
    exists fs'. split; [|done].
    unfold mkdir_once, try_except in Hmk. unfold try_except.
    destruct (os_mkdir {| anchor := Relative; parts := cs ++ [c] |} fs)
      as [[u|e] fs1]; [done|].
    by destruct e as [[] f| | | | | | |].
Qed.

End MakeWay.

(** [mkdir(parents=True, exist_ok=True)] on a path of names under the
    working directory, with no file in the way: it returns, every
    directory of the path is there afterwards, and the only change is
    that missing directories of the path have been made. *)
Lemma mkdir_parents_makes_way cs fs :
  kind fs (cwd fs) = Some Dir →
  plain cs →
  existsb (mentions NUL) cs = false →
  passable fs (cwd fs) cs = true →
  ∃ fs',
    mkdir_parents Relative (reverse cs) true fs = (Return tt, fs')
    ∧ cwd fs' = cwd fs
    ∧ descend fs' (cwd fs) cs = inr (cwd fs ++ cs)
    ∧ ∀ t, kind fs' t = kind fs t
           ∨ (kind fs t = None ∧ kind fs' t = Some Dir
              ∧ ∃ cs1, cs1 `prefix_of` cs ∧ t = cwd fs ++ cs1).
Proof.
  revert fs. induction cs as [|c cs IH] using rev_ind;
    intros fs Hdir Hplain Hclean Hpass.
  - exists fs.
    split; [|split; [done|split; [by rewrite app_nil_r|by left]]].
    cbn [reverse rev_append mkdir_parents]. unfold try_except, os_mkdir.
    unfold has_nul, locate, origin.
    cbn [absolute anchor parts locate_from existsb].
    rewrite Hdir. unfold already_there, bind. rewrite is_dir_found.
    unfold has_nul, found, locate, origin.
    cbn [absolute anchor parts locate_from existsb]. by rewrite Hdir.
  - rewrite reverse_snoc. cbn [mkdir_parents].
    rewrite reverse_cons, reverse_involutive.
    destruct (os_mkdir_first cs c Hplain Hclean fs Hpass)
      as [(fs' & Hmk & Hway & Hmade) | (f & Hmk & k & Hway)].
    + exists fs'. split.
      { unfold try_except in *.
        destruct (os_mkdir _ fs) as [[u|e] fs1]; [done|].
        by destruct e as [[] f| | | | | | |]. }
      split; [by destruct Hmade as [[_ ->] | [_ ->]]|]. split.
      * rewrite descend_snoc.
        rewrite (descend_mono _ _ _ _ _ (made_mono _ _ _ Hmade) Hway).
        apply Forall_app in Hplain as [_ Hc]. rewrite Forall_singleton in Hc.
        rewrite (enter_plain _ _ Hc), <- app_assoc.
        by rewrite (made_kind _ _ _ Hmade).
      * intros t. destruct (made_change _ _ _ t Hmade)
          as [Hsame | (Hnone & Hnew & ->)]; [by left|right].
        split; [done|]. split; [done|]. by exists (cs ++ [c]).
    + unfold try_except. rewrite Hmk. unfold bind.
      apply passable_snoc in Hpass as Hpass'. destruct Hpass' as [Hpass' Hfile].
      apply Forall_app in Hplain as Hplain'. destruct Hplain' as [Hplain' _].
      destruct (IH fs Hdir Hplain' (existsb_snoc_false _ _ _ Hclean) Hpass')
        as (fs1 & -> & Hcwd1 & Hway1 & Hchange1).
      rewrite <- Hcwd1 in Hway1.
      assert (Hfile1 : kind fs1 (cwd fs1 ++ cs ++ [c]) = Some Dir
                       ∨ kind fs1 (cwd fs1 ++ cs ++ [c]) = None).
      { rewrite Hcwd1.
        destruct (Hchange1 (cwd fs ++ cs ++ [c]))
          as [-> | (_ & -> & _)]; [apply Hfile|by left]. }
      destruct (mkdir_once_ready cs c Hplain Hclean fs1 Hway1 Hfile1)
        as (fs2 & -> & Hmade).
      exists fs2. split; [done|].
      split; [destruct Hmade as [[_ ->] | [_ ->]]; done|]. split.
      * rewrite descend_snoc, <- Hcwd1.
        rewrite (descend_mono _ _ _ _ _ (made_mono _ _ _ Hmade) Hway1).
        apply Forall_app in Hplain as [_ Hc]. rewrite Forall_singleton in Hc.
        rewrite (enter_plain _ _ Hc), <- app_assoc.
        by rewrite (made_kind _ _ _ Hmade).
      * intros t. rewrite Hcwd1 in Hmade.
        destruct (made_change _ _ _ t Hmade)
          as [-> | (Hnone & Hnew & ->)].
        -- destruct (Hchange1 t) as [-> | (Hnone & Hnew & cs1 & Hpre & ->)];
             [by left|right].
           split; [done|]. split; [done|].
           exists cs1. split; [by apply prefix_app_r|done].
        -- right. destruct (Hchange1 (cwd fs ++ cs ++ [c]))
             as [Heq | (Hnone0 & Hdir0 & _)]; [|congruence].
           split; [congruence|]. split; [done|]. by exists (cs ++ [c]).
Qed.

Lemma prefix_removelast_not (cs : list string) :
  cs ≠ [] → ¬ cs `prefix_of` removelast cs.
Proof.
  destruct cs as [|c cs _] using rev_ind; [done|]. intros _.
  rewrite removelast_last. apply prefix_snoc_not.
Qed.

Lemma universal_newlines_id s :
  mentions CR s = false → universal_newlines s = s.
Proof.
  induction s as [|c s IH]; [done|]. cbn [mentions universal_newlines].
  intros [Hc Hs]%orb_false_elim. rewrite Hc. f_equal. by apply IH.
Qed.

(** *** The tools on the file system *)

Section OnFiles.

Context {M : Messages}.

Lemma read_file_effect path fs : (read_file path fs).2 = fs.
Proof.
  unfold read_file, try_except, bind. on_posix. rewrite path_exists_found.
  destruct (_ && _); [|done].
  pose proof (read_text_effect (truediv workspace (Path path)) fs) as Hr.
  destruct (read_text _ fs) as [[s|e] fs1]; simpl in *; by subst.
Qed.

(** What a write that reported success has done: the directory of
    the file is there, and the path leads to the file written, or to
    the null device. *)
Lemma write_file_lands path content fs fs' :
  write_file path content fs = (Return (success path), fs') →
  let target := truediv workspace (Path path) in
  ∃ t,
    t ≠ []
    ∧ has_nul target = false
    ∧ valid_utf8 content = true
    ∧ found fs' (parent target) = Some Dir
    ∧ locate fs' target = inr t
    ∧ (nodes fs' !! t = Some (File content) ∨ nodes fs' !! t = Some Null).
Proof.
  intros Hw target. apply write_file_success in Hw as (fs1 & n & Hmk & Hwt).
  on_posix. fold target in Hmk, Hwt.
  apply mkdir_returns in Hmk as [_ Hparent].
  apply write_text_returns in Hwt
      as (Hnul & Hvalid & t & Hloc & [[Hk ->] | (Hk & _ & ->)]).
  - assert (Ht : t ≠ []) by (intros ->; done).
    exists t. do 5 (split; [done|]). right.
    by rewrite <- kind_nonempty.
  - assert (Ht : t ≠ []) by (by eapply kind_root_free).
    destruct (found_written _ _ _ content Hloc Hk) as [Hloc' _].
    exists t. do 3 (split; [done|]). split; [|split; [done|]].
    + apply (found_dir_mono fs1); [done| |done].
      by apply keeps_directories_put_file.
    + left. apply lookup_insert_eq.
Qed.

Lemma read_written path content fs :
  let target := truediv workspace (Path path) in
  has_nul target = false →
  valid_utf8 content = true →
  found fs target = Some (File content) →
  read_file path fs = (Return (universal_newlines content), fs).
Proof.
  intros target Hnul Hvalid Hfound.
  unfold read_file, try_except, bind. on_posix. fold target.
  rewrite path_exists_found, Hnul, Hfound. simpl.
  unfold read_text, bind. rewrite stat_found by done.
  by rewrite Hfound, Hvalid.
Qed.

Lemma read_after_write path content fs fs' :
  write_file path content fs = (Return (success path), fs') →
  let target := truediv workspace (Path path) in
  found fs' target ≠ Some Null →
  found fs' target = Some (File content)
  ∧ found fs' (parent target) = Some Dir
  ∧ read_file path fs' = (Return (universal_newlines content), fs').
Proof.
  intros Hw target Hdevice.
  apply write_file_lands in Hw
      as (t & Ht & Hnul & Hvalid & Hparent & Hloc & Hnode).
  fold target in Hnul, Hparent, Hloc.
  assert (Hfound : found fs' target = Some (File content)).
  { unfold found in *. rewrite Hloc in *. rewrite kind_nonempty in * by done.
    by destruct Hnode. }
  split; [done|]. split; [done|]. by apply read_written.
Qed.

(** Where the path leads to a directory, [write_file] answers with an
    error. *)
Lemma write_on_directory path content fs :
  found fs (truediv workspace (Path path)) = Some Dir →
  ∃ e fs',
    write_file path content fs
    = (Return ("Error writing file: " +:+ str e), fs').
Proof.
  set (target := truediv workspace (Path path)). intros Hfound.
  unfold write_file, try_except, bind. on_posix. fold target.
  pose proof (mkdir_extends (parent target) fs) as Hext.
  destruct (mkdir (parent target) true true fs) as [[[]|e] fs1];
    simpl in Hext; [|by eexists _, _].
  assert (Hf1 : found fs1 target = Some Dir).
  { destruct Hext as [Hcwd Hkeep]. apply (found_dir_mono fs); [done| |done].
    by apply extends_keeps_directories. }
  destruct (write_text_on_directory target content fs1 Hf1) as [e ->].
  by eexists _, _.
Qed.

(** Where the way is clear, [write_file] writes. *)
Lemma write_file_makes_way fs path content :
  kind fs (cwd fs) = Some Dir →
  clear_way fs path = true →
  valid_utf8 content = true →
  let cs := "workspace" :: parts (Path path) in
  ∃ fs',
    write_file path content fs = (Return (success path), fs')
    ∧ descend fs' (cwd fs) (removelast cs) = inr (cwd fs ++ removelast cs).
Proof.
  intros Hdir Hclear Hvalid cs. unfold clear_way in Hclear. fold cs in Hclear.
  apply andb_prop in Hclear as [Hclear Htarget].
  apply andb_prop in Hclear as [Hclear Hpass].
  apply andb_prop in Hclear as [Hclear Hname].
  apply andb_prop in Hclear as [Hinside Hnul].
  apply bool_decide_eq_true in Htarget, Hname.
  apply negb_true_iff in Hnul.
  apply stays_inside_plain in Hinside as [Hrel Hplain].
  assert (Hplain' : plain cs) by (by constructor).
  assert (Hclean : existsb (mentions NUL) cs = false) by done.
  assert (Hsplit : ∃ c, cs = removelast cs ++ [c]).
  { exists (List.last cs ""). by apply app_removelast_last. }
  destruct Hsplit as [c Hsplit].
  assert (Hplain_c : plain (removelast cs ++ [c])) by (by rewrite <- Hsplit).
  assert (Hclean_c : existsb (mentions NUL) (removelast cs ++ [c]) = false)
    by (by rewrite <- Hsplit).
  destruct (mkdir_parents_makes_way (removelast cs) fs Hdir
              (plain_removelast _ Hplain')
              (existsb_snoc_false _ _ _ Hclean_c) Hpass)
    as (fs1 & Hmk & Hcwd1 & Hway1 & Hchange1).
  assert (Htarget1 : kind fs1 (cwd fs ++ cs) ≠ Some Dir).
  { destruct (Hchange1 (cwd fs ++ cs))
      as [-> | (_ & _ & cs1 & Hpre & Heq)]; [done|].
    apply app_inv_head in Heq as <-.
    by destruct (prefix_removelast_not cs). }
  assert (Hwt : ∃ n fs',
             write_text {| anchor := Relative; parts := cs |} content fs1
             = (Return n, fs')
             ∧ keeps_directories fs1 fs').
  { apply (write_text_succeeds _ _ _ (cwd fs ++ cs)); [done| |done|done].
    unfold locate, origin. cbn [absolute anchor parts].
    rewrite Hcwd1. rewrite Hsplit at 1.
    rewrite locate_from_snoc, Hway1.
    apply Forall_app in Hplain_c as [_ Hc]. rewrite Forall_singleton in Hc.
    by rewrite (enter_plain _ _ Hc), <- app_assoc, <- Hsplit. }
  destruct Hwt as (n & fs' & Hwt & Hkeep).
  exists fs'. split.
  - unfold write_file, try_except, bind. on_posix.
    rewrite workspace_join by done.
    unfold mkdir, parent. cbn [anchor parts]. fold cs. by rewrite Hmk, Hwt.
  - by apply descend_mono with (fs := fs1).
Qed.


End OnFiles.

(** *** The tools at work, with the messages of CPython *)

#[local] Existing Instance cpython.


(** C1.  The code does not do what the claim says: a path that leaves
    the sandbox is not refused.  [write_file("../outside.txt", "x")],
    called where the [workspace] directory exists, reports success,
    and the file is made next to [workspace], not under it; a
    following [read_file] of the same path reads it from there. *)
Theorem escape_is_not_refused :
  let outside := ["home"; "user"; "outside.txt"] in
  let after := put outside (File "x") fresh_workspace in
  write_file "../outside.txt" "x" fresh_workspace
  = (Return "File written successfully: ../outside.txt", after)
  ∧ nodes fresh_workspace !! outside = None
  ∧ ¬ (cwd fresh_workspace ++ ["workspace"]) `prefix_of` outside
  ∧ read_file "../outside.txt" after = (Return "x", after).
Proof.
  split; [vm_compute; reflexivity|]. split; [vm_compute; reflexivity|].
  split; [|vm_compute; reflexivity].
  intros [k Hk]. discriminate Hk.
Qed.



End FileTools.

(** ** More on the system: client, start-up, registry, teams *)

Module SystemMore.
Import Py MCPIntegration MultiAgentSystem CreateGithubRepo SystemNotions Cases.

Lemma init_parts env key self :
  MultiAgentSystem.init env key = Return self →
  agents self = [] ∧ team self = None
  ∧ MCPIntegration.init (mcp_servers_json env) "mcp_servers.json"
    = Return (mcp_integration self)
  ∧ create_tool_functions (mcp_integration self)
    = Return (tool_functions self).
Proof.
  unfold MultiAgentSystem.init.
  destruct (new_GroqModelClient _ _ _) as [g|]; simpl; [|discriminate].
  destruct (MCPIntegration.init _ _) as [mcp|]; simpl; [|discriminate].
  destruct (create_tool_functions mcp) as [functions|] eqn:Hfn; simpl;
    [|discriminate].
  by intros [= <-].
Qed.

Lemma no_key_no_client getenv key model :
  truthy key = false → truthy getenv = false →
  new_GroqModelClient getenv key model
  = Raise (ValueError "GROQ_API_KEY environment variable is required").
Proof.
  unfold new_GroqModelClient. intros -> Henv.
  destruct getenv as [k|]; [|done]. simpl in Henv.
  by destruct (String.eqb k "").
Qed.

(** X1.  The key of the model client: a non-empty key given to the
    constructor is used whatever the environment holds; without one
    the key of the environment is used; and when neither is there (or
    both are empty) the constructor raises [ValueError]. *)
Theorem groq_client_key (getenv key : option string) (model : string) :
  (∀ k, key = Some k → k ≠ "" →
     ∃ g, new_GroqModelClient getenv key model = Return g
          ∧ api_key g = k ∧ client_api_key (get_client g) = k
          ∧ client_model (get_client g) = model)
  ∧ (∀ k, truthy key = false → getenv = Some k → k ≠ "" →
       ∃ g, new_GroqModelClient getenv key model = Return g
            ∧ api_key g = k ∧ client_api_key (get_client g) = k
            ∧ client_model (get_client g) = model)
  ∧ (truthy key = false → truthy getenv = false →
     new_GroqModelClient getenv key model
     = Raise (ValueError "GROQ_API_KEY environment variable is required")).
Proof.
  split; [|split]; [unfold new_GroqModelClient..|].
  - intros k -> Hk. simpl.
    destruct (String.eqb_spec k ""); [done|]. simpl.
    destruct (String.eqb_spec k ""); [done|]. by eexists.
  - intros k -> -> Hk.
    destruct (String.eqb_spec k ""); [done|]. by eexists.
  - apply no_key_no_client.
Qed.

Lemma groq_client_key_witness :
  (∃ g, new_GroqModelClient (Some "gsk_env") (Some "gsk_arg") "llama3-8b-8192"
        = Return g ∧ api_key g = "gsk_arg")
  ∧ (∃ g, new_GroqModelClient (Some "gsk_env") (Some "") "llama3-8b-8192"
          = Return g ∧ api_key g = "gsk_env")
  ∧ new_GroqModelClient (Some "") None "llama3-8b-8192"
    = Raise (ValueError "GROQ_API_KEY environment variable is required").
Proof.
  destruct (groq_client_key (Some "gsk_env") (Some "gsk_arg") "llama3-8b-8192")
    as (Harg & _ & _).
  destruct (groq_client_key (Some "gsk_env") (Some "") "llama3-8b-8192")
    as (_ & Henv & _).
  destruct (groq_client_key (Some "") None "llama3-8b-8192")
    as (_ & _ & Hnone).
  split; [|split].
  - destruct (Harg "gsk_arg" eq_refl) as (g & Hg & Hk & _); [done|].
    by exists g.
  - destruct (Henv "gsk_env" eq_refl eq_refl) as (g & Hg & Hk & _); [done|].
    by exists g.
  - by apply Hnone.
Defined.

(** X2.  Start-up of the system.  Without an API key it raises the
    [ValueError] of the model client whatever the descriptor is, since
    the client is made first.  When it returns, the system has no
    agents and no team yet, its servers are those the loader returned,
    and its tool functions are the registry built from them. *)
Theorem init_order (env : environment) (key : option string) :
  (truthy key = false → truthy (GROQ_API_KEY env) = false →
   MultiAgentSystem.init env key
   = Raise (ValueError "GROQ_API_KEY environment variable is required"))
  ∧ (∀ self,
       MultiAgentSystem.init env key = Return self →
       agents self = [] ∧ team self = None
       ∧ MCPIntegration.init (mcp_servers_json env) "mcp_servers.json"
         = Return (mcp_integration self)
       ∧ create_tool_functions (mcp_integration self)
         = Return (tool_functions self)).
Proof.
  split.
  - intros Hkey Henv. unfold MultiAgentSystem.init.
    by rewrite no_key_no_client.
  - intros self. apply init_parts.
Qed.

Lemma init_order_witness :
  MultiAgentSystem.init
    {| GROQ_API_KEY := None; mcp_servers_json := descriptor fs_only |} None
  = Raise (ValueError "GROQ_API_KEY environment variable is required")
  ∧ agents system_fs_only = [] ∧ team system_fs_only = None.
Proof.
  destruct (init_order
              {| GROQ_API_KEY := None; mcp_servers_json := descriptor fs_only |}
              None) as [Hnone _].
  destruct (init_order env_fs_only None) as [_ Hsome].
  split; [by apply Hnone|].
  destruct (Hsome system_fs_only eq_refl) as (Ha & Ht & _). by split.
Defined.

Lemma create_tool_functions_shapes mcp functions :
  create_tool_functions mcp = Return functions →
  functions ∈ [[]; fs_tools; github_tools; fs_tools ++ github_tools].
Proof.
  unfold create_tool_functions. intros Hfn.
  destruct (has "fs" (servers mcp)) as [[]|]; simpl in Hfn; [| |discriminate];
    (destruct (has "github" (servers mcp)) as [[]|]; simpl in Hfn;
     [| |discriminate]);
    injection Hfn as <-; rewrite !elem_of_cons; auto 6.
Qed.

(** X3.  The tool functions of a started system, whatever the shape of
    its [servers] entry: none, the file tools, the GitHub tools, or
    the file tools followed by the GitHub tools.  No name occurs
    twice, and each name is bound to the function of that name. *)
Theorem started_registry
  (env : environment) (key : option string) (self : MultiAgentSystem) :
  MultiAgentSystem.init env key = Return self →
  get_available_tools self
    ∈ [[]; fs_names; github_names; fs_names ++ github_names]
  ∧ NoDup (get_available_tools self)
  ∧ ∀ n f, dict_lookup (tool_functions self) n = Some f → tool_name f = n.
Proof.
  intros Hinit. destruct (init_parts env key self Hinit) as (_ & _ & _ & Hfn).
  apply create_tool_functions_shapes in Hfn.
  unfold get_available_tools.
  rewrite !elem_of_cons, elem_of_nil in Hfn. rewrite !elem_of_cons.
  destruct Hfn as [Hf | [Hf | [Hf | [Hf | []]]]]; rewrite Hf;
    (split; [by repeat (first [left; reflexivity | right])|]);
    (split; [apply (bool_decide_unpack _); vm_compute; exact I|]);
    intros n f; simpl; repeat case_decide; subst; try done;
    intros [= <-]; done.
Qed.

Lemma started_registry_witness :
  get_available_tools system_fs_only
    ∈ [[]; fs_names; github_names; fs_names ++ github_names]
  ∧ NoDup (get_available_tools system_fs_only)
  ∧ ∀ n f,
      dict_lookup (tool_functions system_fs_only) n = Some f → tool_name f = n.
Proof.
  apply (started_registry env_fs_only None system_fs_only). reflexivity.
Defined.

Lemma get_available_tools_loop_raises entries tools :
  forallb is_dict (values entries) = false →
  ∃ msg, get_available_tools_loop entries tools = Raise (AttributeError msg).
Proof.
  revert tools. induction entries as [|[k cfg] entries IH]; intros tools;
    [done|].
  simpl. destruct cfg; simpl; eauto.
Qed.

(** X4.  The listing of the servers is all or nothing: when [servers]
    is not a mapping, or one of its servers is not a mapping, the call
    raises [AttributeError] and gives no partial list. *)
Theorem get_available_tools_malformed (self : MCPIntegration) :
  well_formed (servers self) = false →
  ∃ msg,
    MCPIntegration.get_available_tools self = Raise (AttributeError msg).
Proof.
  unfold well_formed, MCPIntegration.get_available_tools.
  destruct (servers self); simpl; eauto.
  apply get_available_tools_loop_raises.
Qed.

Lemma get_available_tools_malformed_witness :
  ∃ msg,
    MCPIntegration.get_available_tools
      {| config_path := "mcp_servers.json";
         servers := JObj [("fs", fs_server); ("web", JStr "npx")] |}
    = Raise (AttributeError msg).
Proof.
  apply (get_available_tools_malformed
           {| config_path := "mcp_servers.json";
              servers := JObj [("fs", fs_server); ("web", JStr "npx")] |}).
  reflexivity.
Defined.

(** The keys and the names of agents made from requests are those of
    the requests. *)
Lemma made_from_names self kept requests :
  Forall2 (made_from self) kept requests →
  keys kept = keys requests
  ∧ agent_name <$> values kept = name <$> values requests.
Proof.
  unfold keys, values.
  induction 1 as [|[k agent] [k' request] kept requests [Hk Hmade] _ [IH1 IH2]];
    [done|].
  simpl in Hk, Hmade. injection Hmade as <-. subst k'.
  csimpl. by rewrite IH1, IH2.
Qed.



(** X6.  The token read by [get_github_token]: with no descriptor the
    answer is [None]; with a document in which the top level and the
    [servers], [github] and [env] levels (each an empty mapping when
    missing) are mappings, it is the value under
    [GITHUB_PERSONAL_ACCESS_TOKEN], or [None] when there is none; and
    when one of these levels is not a mapping the call raises
    [AttributeError]. *)
Theorem get_github_token_outcomes (config : json) :
  let servers := level "servers" config in
  let github := level "github" servers in
  let env := level "env" github in
  get_github_token Missing = Return JNull
  ∧ if is_dict config && is_dict servers && is_dict github && is_dict env
    then get_github_token (Document config)
         = Return (match env with
                   | JObj o =>
                       default JNull
                         (dict_lookup o "GITHUB_PERSONAL_ACCESS_TOKEN")
                   | _ => JNull
                   end)
    else ∃ msg, get_github_token (Document config) = Raise (AttributeError msg).
Proof.
  simpl. split; [done|].
  destruct config as [| | | | |o]; simpl; eauto.
  destruct (default (JObj []) (dict_lookup o "servers")) as [| | | | |o1];
    simpl; eauto.
  destruct (default (JObj []) (dict_lookup o1 "github")) as [| | | | |o2];
    simpl; eauto.
  destruct (default (JObj []) (dict_lookup o2 "env")) as [| | | | |o3];
    simpl; eauto.
Qed.

End SystemMore.

(** ** More on the file tools *)

Module FileToolsMore.
Import Py Text Fs Tools FileNotions Cases FileTools.

Section OnFiles.

Context {M : Messages}.

(** *** Reading and listing, case by case *)

(** X7.  What [read_file] does where the path meets plain files and
    directories.  It leaves the file system as it was, whatever the
    path.  For a path within the limits on names, it returns: the
    not-found message when the joined path leads to nothing (or holds
    a NUL character); when it leads to a file, wherever that file is,
    its text with line ends translated if its bytes are UTF-8, and
    otherwise the text of the decoding error after
    [Error reading file: ]; the text of the is-a-directory error,
    which names the joined path, when it leads to a directory; and
    nothing when it leads to the null device. *)
Theorem read_file_outcomes (fs : filesystem) (path : string) :
  let target := truediv workspace (Path path) in
  (read_file path fs).2 = fs
  ∧ (within_limits target = true →
     (read_file path fs).1
     = Return
         (if has_nul target then "File not found: " +:+ path
          else match found fs target with
               | None => "File not found: " +:+ path
               | Some (File data) =>
                   if valid_utf8 data then universal_newlines data
                   else "Error reading file: "
                        +:+ str (UnicodeDecodeError data)
               | Some Dir =>
                   "Error reading file: "
                   +:+ str (OSError EISDIR (str_path target))
               | Some Null => EmptyString
               end)).
Proof.
  intros target. split; [apply read_file_effect|]. intros _.
  unfold read_file, try_except, bind. on_posix. fold target.
  rewrite path_exists_found.
  destruct (has_nul target) eqn:Hnul; [done|]. simpl.
  destruct (found fs target) as [[data| |]|] eqn:Hfound; simpl; [| | |done];
    unfold read_text, bind; rewrite stat_found by done; rewrite Hfound;
    [|done|done].
  by destruct (valid_utf8 data).
Qed.

(** The entries of a directory. *)
Lemma elem_of_children fs t x :
  x ∈ children fs t ↔ is_Some (nodes fs !! (t ++ [x])).
Proof.
  unfold children. rewrite list_elem_of_omap. split.
  - intros ([k n] & Hkn%elem_of_map_to_list & Hx). cbn [fst] in Hx.
    destruct k as [|c k] using rev_ind; [done|]. clear IHk.
    destruct (k ++ [c]) as [|c0 k0] eqn:Hk; [by destruct k|].
    rewrite <- Hk in Hx. rewrite removelast_last, last_snoc in Hx.
    case_decide; [|done]. injection Hx as ->. subst t.
    rewrite <- Hk in Hkn. by eexists.
  - intros [n Hn]. exists (t ++ [x], n).
    split; [by apply elem_of_map_to_list|]. cbn [fst].
    destruct (t ++ [x]) as [|c0 k0] eqn:Hk; [by destruct t|].
    rewrite <- Hk. rewrite removelast_last, last_snoc. by case_decide.
Qed.

Lemma NoDup_omap_inj {A B} (f : A → option B) (l : list A) :
  NoDup l →
  (∀ a1 a2 b, a1 ∈ l → a2 ∈ l → f a1 = Some b → f a2 = Some b → a1 = a2) →
  NoDup (omap f l).
Proof.
  induction 1 as [|a l Ha Hl IH]; intros Hinj; [constructor|].
  simpl. destruct (f a) as [b|] eqn:Hfa.
  - constructor.
    + rewrite list_elem_of_omap. intros (a' & Ha' & Hfa').
      assert (a = a') as <-; [|done].
      eapply Hinj; eauto using list_elem_of_here, list_elem_of_further.
    + apply IH. intros a1 a2 b' H1 H2. apply Hinj; by constructor.
  - apply IH. intros a1 a2 b' H1 H2. apply Hinj; by constructor.
Qed.

Lemma NoDup_children fs t : NoDup (children fs t).
Proof.
  unfold children. apply NoDup_omap_inj; [apply NoDup_map_to_list|].
  intros [k1 n1] [k2 n2] x H1%elem_of_map_to_list H2%elem_of_map_to_list.
  cbn [fst]. intros Hx1 Hx2.
  assert (Hkey : ∀ k, match k with
                      | [] => None
                      | s :: l =>
                          if decide (removelast (s :: l) = t)
                          then last (s :: l) else None
                      end = Some x → k = t ++ [x]).
  { intros k. destruct k as [|c k] using rev_ind; [done|]. clear IHk.
    destruct (k ++ [c]) as [|c0 k0] eqn:Hk; [by destruct k|].
    rewrite <- Hk. rewrite removelast_last, last_snoc.
    case_decide; [|done]. by intros [= ->]; subst. }
  apply Hkey in Hx1, Hx2. subst. f_equal. congruence.
Qed.

Lemma list_files_on_directory fs directory t :
  let target := truediv workspace (Path directory) in
  has_nul target = false →
  locate fs target = inr t →
  kind fs t = Some Dir →
  list_files directory fs
  = (Return ("Files in " +:+ directory +:+ ": "
             +:+ join ", " (children fs t)), fs).
Proof.
  intros target Hnul Hloc Hdir.
  unfold list_files, try_except, bind. on_posix. fold target.
  rewrite path_exists_found, Hnul. unfold found. rewrite Hloc, Hdir. simpl.
  rewrite is_dir_found, Hnul. unfold found. rewrite Hloc, Hdir. simpl.
  unfold iterdir. by rewrite Hnul, Hloc, Hdir.
Qed.


(** *** Writing again *)

(** After a write that reported success, writing to the same path
    finds the directories made and the file in place: the file is
    opened, and gets the new content if that has an encoding; the null
    device stays as it is. *)
Lemma write_again path content1 content2 fs fs' :
  write_file path content1 fs = (Return (success path), fs') →
  ∃ t, t ≠ []
       ∧ valid_utf8 content1 = true
       ∧ locate fs' (truediv workspace (Path path)) = inr t
       ∧ (nodes fs' !! t = Some (File content1)
          ∨ nodes fs' !! t = Some Null)
       ∧ write_file path content2 fs'
         = (Return (if valid_utf8 content2 then success path
                    else "Error writing file: "
                         +:+ str (UnicodeEncodeError content2)),
            match nodes fs' !! t with
            | Some Null => fs'
            | _ => put t (File (if valid_utf8 content2 then content2
                                else EmptyString)) fs'
            end).
Proof.
  intros Hw.
  apply write_file_lands in Hw
      as (t & Ht & Hnul & Hvalid & Hparent & Hloc & Hnode).
  set (target := truediv workspace (Path path)) in *.
  exists t. do 4 (split; [done|]).
  unfold write_file, try_except, bind. on_posix. fold target.
  rewrite mkdir_existing; [|by apply has_nul_parent|done].
  unfold write_text. rewrite Hnul, Hloc. rewrite kind_nonempty by done.
  destruct Hnode as [-> | ->]; by destruct (valid_utf8 content2).
Qed.

(** X9.  Writing twice to the same path, where that does not lead to
    a device: when the first [write_file] reports success, a second
    one with a content that has a UTF-8 encoding reports success too,
    and [read_file] then returns the second content (with line ends
    translated); nothing of the first is left.  A second content
    without encoding gives the text of the encoding error instead, and
    leaves the file empty. *)
Theorem write_file_overwrites
  (fs fs1 : filesystem) (path content1 content2 : string) :
  let target := truediv workspace (Path path) in
  write_file path content1 fs = (Return (success path), fs1) →
  found fs1 target ≠ Some Null →
  (valid_utf8 content2 = true →
   ∃ fs2,
     write_file path content2 fs1 = (Return (success path), fs2)
     ∧ found fs2 target = Some (File content2)
     ∧ read_file path fs2 = (Return (universal_newlines content2), fs2))
  ∧ (valid_utf8 content2 = false →
     ∃ fs2,
       write_file path content2 fs1
       = (Return ("Error writing file: "
                  +:+ str (UnicodeEncodeError content2)), fs2)
       ∧ found fs2 target = Some (File EmptyString)).
Proof.
  intros target Hw Hdevice.
  destruct (write_again _ _ content2 _ _ Hw)
    as (t & Ht & _ & Hloc & Hnode & Hw2).
  fold target in Hloc.
  assert (Hn : nodes fs1 !! t = Some (File content1)).
  { destruct Hnode as [Hn | Hn]; [done|]. destruct Hdevice.
    unfold found. rewrite Hloc. by rewrite kind_nonempty. }
  rewrite Hn in Hw2.
  assert (Hk : kind fs1 t ≠ Some Dir).
  { rewrite kind_nonempty by done. by rewrite Hn. }
  split; intros Hvalid; rewrite Hvalid in Hw2; eexists; (split; [exact Hw2|]).
  - destruct (found_written _ _ _ content2 Hloc Hk) as [Hloc2 Hfound].
    split; [done|]. apply read_written; [|done|done].
    by apply write_file_lands in Hw as (_ & _ & Hnul & _).
  - by destruct (found_written _ _ _ EmptyString Hloc Hk) as [_ Hfound].
Qed.

Lemma put_same t n fs : nodes fs !! t = Some n → put t n fs = fs.
Proof.
  intros Hn. destruct fs as [w m]. unfold put. simpl in *.
  by rewrite insert_id.
Qed.

(** X10.  Writing the same content again changes nothing: after a
    [write_file] that reported success, the same call reports success
    and leaves the file system exactly as it is. *)
Theorem write_file_idempotent
  (fs fs1 : filesystem) (path content : string) :
  write_file path content fs = (Return (success path), fs1) →
  write_file path content fs1 = (Return (success path), fs1).
Proof.
  intros Hw.
  destruct (write_again _ _ content _ _ Hw) as (t & _ & Hv & _ & Hn & Hw2).
  rewrite Hv in Hw2.
  destruct Hn as [Hn | Hn]; rewrite Hn in Hw2; [|done].
  by rewrite (put_same _ _ _ Hn) in Hw2.
Qed.

(** *** Writing where a directory is, and listing what was written *)

Lemma found_parent fs p :
  kind fs (cwd fs) = Some Dir →
  found fs p = Some Dir → found fs (parent p) = Some Dir.
Proof.
  intros Hcwd. unfold found, locate, parent, origin, absolute.
  cbn [anchor parts].
  destruct (parts p) as [|c cs _] using rev_ind; [done|].
  rewrite removelast_last, locate_from_snoc.
  destruct (descend fs _ cs) as [k|t'] eqn:Hd; [done|]. intros _.
  destruct (decide (cs = [])) as [->|Hcs].
  - simpl in *. injection Hd as <-. by destruct (anchor p).
  - destruct (descend_locate _ _ _ _ Hcs Hd) as [-> Hk]. done.
Qed.

(** X11.  On a file system of plain files and directories,
    [write_file] on a path without NUL character, within the limits on
    names, that leads to a directory writes nothing: it returns, after
    [Error writing file: ], the text of the is-a-directory error,
    which names the joined path, and the file system is left as it
    was. *)
Theorem write_file_on_directory
  (fs : filesystem) (path content : string) :
  let target := truediv workspace (Path path) in
  kind fs (cwd fs) = Some Dir →
  has_nul target = false →
  within_limits target = true →
  found fs target = Some Dir →
  write_file path content fs
  = (Return ("Error writing file: "
             +:+ str (OSError EISDIR (str_path target))), fs).
Proof.
  intros target Hcwd Hnul _ Hfound.
  unfold write_file, try_except, bind. on_posix. fold target.
  rewrite mkdir_existing;
    [|by apply has_nul_parent|by apply found_parent].
  unfold write_text. rewrite Hnul. unfold found in Hfound.
  destruct (locate fs target) as [k|t]; [done|]. by rewrite Hfound.
Qed.

(** X12.  A file that has been written is listed: when [write_file]
    reports success for a relative path whose last name is [name] and
    whose other names are those of the relative path [directory],
    [list_files] on [directory] then answers with the names of that
    directory, [name] among them. *)
Theorem written_file_is_listed
  (fs fs' : filesystem) (path content directory name : string) :
  write_file path content fs = (Return (success path), fs') →
  anchor (Path path) = Relative →
  anchor (Path directory) = Relative →
  parts (Path path) = parts (Path directory) ++ [name] →
  name ≠ ".." →
  ∃ files,
    list_files directory fs'
    = (Return ("Files in " +:+ directory +:+ ": " +:+ join ", " files), fs')
    ∧ name ∈ files.
Proof.
  intros Hw Hrel Hreld Hparts Hname.
  apply write_file_lands in Hw
      as (t & Ht & Hnul & _ & Hparent & Hloc & Hnode).
  rewrite workspace_join in Hnul, Hparent, Hloc by done.
  unfold parent in Hparent. cbn [anchor parts] in Hparent.
  rewrite Hparts in Hnul, Hparent, Hloc.
  change ("workspace" :: parts (Path directory) ++ [name])
    with (("workspace" :: parts (Path directory)) ++ [name])
    in Hnul, Hparent, Hloc.
  rewrite removelast_last in Hparent.
  rewrite <- (workspace_join (Path directory)) in Hparent by done.
  set (target := truediv workspace (Path directory)) in *.
  unfold found in Hparent.
  destruct (locate fs' target) as [k|tp] eqn:Hlocp; [done|].
  assert (Hplace : t = tp ++ [name]).
  { unfold locate, origin in Hloc, Hlocp. unfold target in Hlocp.
    rewrite workspace_join in Hlocp by done.
    cbn [absolute anchor parts] in Hloc, Hlocp.
    rewrite locate_from_snoc in Hloc.
    rewrite (locate_descend _ _ _ _ Hlocp Hparent) in Hloc.
    rewrite enter_plain in Hloc by done. by injection Hloc. }
  exists (children fs' tp). split.
  - apply list_files_on_directory; [|done|done].
    fold target. unfold target. rewrite workspace_join by done.
    unfold has_nul in *. cbn [parts] in *.
    by apply existsb_snoc_false in Hnul.
  - apply elem_of_children. rewrite <- Hplace.
    destruct Hnode as [-> | ->]; by eexists.
Qed.

(** *** What [write_file] keeps *)

Lemma write_text_effect p data fs :
  (write_text p data fs).2 = fs
  ∨ ∃ t, kind fs t ≠ Some Dir
         ∧ kind fs t ≠ Some Null
         ∧ (write_text p data fs).2
           = put t (File (if valid_utf8 data then data else EmptyString)) fs.
Proof.
  unfold write_text. destruct (has_nul p); [by left|].
  destruct (locate fs p) as [k|t]; [by left|].
  destruct (kind fs t) as [[data'| |]|] eqn:Hk;
    [right|by left|left; by destruct (valid_utf8 data)|right];
    exists t; rewrite Hk; do 2 (split; [done|]);
    by destruct (valid_utf8 data).
Qed.

(** X13.  [write_file] removes nothing, whatever the path and whether
    it succeeds or not: every directory is still there afterwards, and
    so is the null device, and every file is still there, with the
    content it had, or with the content just written, or empty, where
    that content has no UTF-8 encoding: the file is opened, and so
    emptied, before the content is encoded. *)
Theorem write_file_keeps
  (fs : filesystem) (path content : string) (t : list string) (n : node) :
  nodes fs !! t = Some n →
  nodes (write_file path content fs).2 !! t = Some n
  ∨ ∃ data,
      n = File data
      ∧ nodes (write_file path content fs).2 !! t
        = Some (File (if valid_utf8 content then content else EmptyString)).
Proof.
  intros Hn. unfold write_file, try_except, bind. on_posix.
  set (target := truediv workspace (Path path)).
  pose proof (mkdir_extends (parent target) fs) as [_ Hmk].
  destruct (mkdir (parent target) true true fs) as [[u|e] fs1];
    simpl in Hmk; [|left; by apply Hmk].
  apply Hmk in Hn.
  assert (Hkeep :
    nodes (write_text target content fs1).2 !! t = Some n
    ∨ ∃ data,
        n = File data
        ∧ nodes (write_text target content fs1).2 !! t
          = Some (File (if valid_utf8 content then content
                        else EmptyString))).
  { destruct (write_text_effect target content fs1)
      as [-> | (t0 & Hk & Hdevice & ->)]; [by left|]. simpl.
    destruct (decide (t = t0)) as [->|Hne].
    - right. destruct n as [data| |].
      + exists data. split; [done|apply lookup_insert_eq].
      + destruct t0; [done|]. simpl in Hk. congruence.
      + destruct t0; [done|]. simpl in Hdevice. congruence.
    - left. by rewrite lookup_insert_ne. }
  by destruct (write_text target content fs1) as [[k|e] fs2].
Qed.

End OnFiles.

(** *** The properties at work, with the messages of CPython *)

#[local] Existing Instance cpython.

Lemma read_file_outcomes_witness :
  (read_file "." fresh_workspace).1
  = Return "Error reading file: [Errno 21] Is a directory: 'workspace'"
  ∧ (read_file "notes.txt" fresh_workspace).1
    = Return "File not found: notes.txt"
  ∧ (read_file "a.txt" (write_file "a.txt" "a,b" fresh_workspace).2).1
    = Return "a,b"
  ∧ (read_file "menu.txt" latin1_menu).1
    = Return ("Error reading file: 'utf-8' codec can't decode byte 0xe9 "
              +:+ "in position 3: unexpected end of data")
  ∧ (read_file "/dev/null" with_null_device).1 = Return EmptyString.
Proof.
  split; [exact (proj2 (read_file_outcomes fresh_workspace ".") eq_refl)|].
  split;
    [exact (proj2 (read_file_outcomes fresh_workspace "notes.txt") eq_refl)|].
  split;
    [exact (proj2 (read_file_outcomes
                     (write_file "a.txt" "a,b" fresh_workspace).2 "a.txt")
              eq_refl)|].
  split; [exact (proj2 (read_file_outcomes latin1_menu "menu.txt") eq_refl)|].
  exact (proj2 (read_file_outcomes with_null_device "/dev/null") eq_refl).
Defined.


Lemma write_file_overwrites_witness :
  (∃ fs2,
     write_file "data/test.csv" "c,d"
       (write_file "data/test.csv" "a,b" empty_project).2
     = (Return "File written successfully: data/test.csv", fs2)
     ∧ read_file "data/test.csv" fs2 = (Return "c,d", fs2))
  ∧ ∃ fs2,
      write_file "data/test.csv" unencodable
        (write_file "data/test.csv" "a,b" empty_project).2
      = (Return ("Error writing file: 'utf-8' codec can't encode character "
                 +:+ "'" +:+ String backslash "udcff' in position 3: "
                 +:+ "surrogates not allowed"), fs2)
      ∧ read_file "data/test.csv" fs2 = (Return EmptyString, fs2).
Proof.
  destruct (write_file_overwrites empty_project
              (write_file "data/test.csv" "a,b" empty_project).2
              "data/test.csv" "a,b" "c,d") as [Hvalid _];
    [vm_compute; reflexivity|vm_compute; discriminate|].
  destruct (write_file_overwrites empty_project
              (write_file "data/test.csv" "a,b" empty_project).2
              "data/test.csv" "a,b" unencodable) as [_ Hbad];
    [vm_compute; reflexivity|vm_compute; discriminate|].
  split.
  - destruct (Hvalid eq_refl) as (fs2 & Hw & _ & Hr).
    exists fs2. split; [exact Hw|exact Hr].
  - destruct (Hbad eq_refl) as (fs2 & Hw & Hempty).
    exists fs2. split; [exact Hw|].
    apply (read_written (M := cpython) "data/test.csv" EmptyString);
      [|reflexivity|exact Hempty].
    vm_compute. reflexivity.
Defined.

Lemma write_file_idempotent_witness :
  write_file "data/test.csv" "a,b"
    (write_file "data/test.csv" "a,b" empty_project).2
  = (Return "File written successfully: data/test.csv",
     (write_file "data/test.csv" "a,b" empty_project).2).
Proof.
  apply (write_file_idempotent empty_project
           (write_file "data/test.csv" "a,b" empty_project).2
           "data/test.csv" "a,b").
  vm_compute. reflexivity.
Defined.

Lemma write_file_on_directory_witness :
  write_file "." "x" fresh_workspace
  = (Return "Error writing file: [Errno 21] Is a directory: 'workspace'",
     fresh_workspace).
Proof.
  refine (write_file_on_directory fresh_workspace "." "x" _ _ _ _);
    vm_compute; reflexivity.
Defined.

Lemma written_file_is_listed_witness :
  ∃ files,
    list_files "data" (write_file "data/test.csv" "a,b" empty_project).2
    = (Return ("Files in data: " +:+ join ", " files),
       (write_file "data/test.csv" "a,b" empty_project).2)
    ∧ "test.csv" ∈ files.
Proof.
  apply (written_file_is_listed empty_project
           (write_file "data/test.csv" "a,b" empty_project).2
           "data/test.csv" "a,b" "data" "test.csv");
    [vm_compute; reflexivity|reflexivity|reflexivity|reflexivity|discriminate].
Defined.

Lemma write_file_keeps_witness :
  nodes (write_file "../x" "new" (write_file "a.txt" "old" fresh_workspace).2).2
    !! ["home"; "user"; "workspace"; "a.txt"] = Some (File "old")
  ∨ ∃ data,
      File "old" = File data
      ∧ nodes (write_file "../x" "new"
                 (write_file "a.txt" "old" fresh_workspace).2).2
          !! ["home"; "user"; "workspace"; "a.txt"] = Some (File "new").
Proof.
  refine (write_file_keeps (write_file "a.txt" "old" fresh_workspace).2
            "../x" "new" ["home"; "user"; "workspace"; "a.txt"] (File "old")
            _).
  vm_compute. reflexivity.
Defined.

End FileToolsMore.
